(** * Static analyzers of the code-review assistant

    A shallow embedding of [code_assistant/agent_tools.py]: the four
    analyzers [analyze_code_structure], [check_security_issues],
    [check_performance_issues] and [check_documentation], followed by the
    properties of their results.

    Source text is a [string] of characters with code points below 256
    (Latin-1); on that range [str.lower] and [str.strip] act character by
    character, which is how they are written here. *)

From Stdlib Require Import String Ascii List Bool Arith Lia Permutation.
From Stdlib Require Import DecimalString Sorted.
Import ListNotations.

Set Warnings "-register-all".

Open Scope string_scope.
Open Scope nat_scope.
Open Scope list_scope.

(* ================================================================= *)
(** ** Python string primitives used by the analyzers *)

Module PyStr.

Definition newline : ascii := ascii_of_nat 10.
Definition dquote : ascii := ascii_of_nat 34.

(** [str.isspace] for one character. *)
Definition isspace (c : ascii) : bool :=
  let n := nat_of_ascii c in
  ((9 <=? n) && (n <=? 13)) || ((28 <=? n) && (n <=? 32))
  || (n =? 133) || (n =? 160).

(** Upper-case letters: A-Z and the Latin-1 capitals (all of 192..222
    but the multiplication sign 215). *)
Definition isupper (c : ascii) : bool :=
  let n := nat_of_ascii c in
  ((65 <=? n) && (n <=? 90))
  || ((192 <=? n) && (n <=? 222) && negb (n =? 215)).

Definition lower_char (c : ascii) : ascii :=
  if isupper c then ascii_of_nat (nat_of_ascii c + 32) else c.

(** [s.lower()] *)
Fixpoint lower (s : string) : string :=
  match s with
  | EmptyString => EmptyString
  | String c rest => String (lower_char c) (lower rest)
  end.

(** [s.lstrip()] *)
Fixpoint lstrip (s : string) : string :=
  match s with
  | EmptyString => EmptyString
  | String c rest => if isspace c then lstrip rest else s
  end.

(** [s.rstrip()] *)
Fixpoint rstrip (s : string) : string :=
  match s with
  | EmptyString => EmptyString
  | String c rest =>
      match rstrip rest with
      | EmptyString => if isspace c then EmptyString else String c EmptyString
      | kept => String c kept
      end
  end.

(** [s.strip()] *)
Definition strip (s : string) : string := rstrip (lstrip s).

(** [s.startswith(p)] *)
Fixpoint startswith (p s : string) : bool :=
  match p, s with
  | EmptyString, _ => true
  | String _ _, EmptyString => false
  | String a p', String b s' => Ascii.eqb a b && startswith p' s'
  end.

(** [s.startswith((p1, p2, ...))] *)
Definition startswith_any (ps : list string) (s : string) : bool :=
  existsb (fun p => startswith p s) ps.

(** [p in s] *)
Fixpoint contains (p s : string) : bool :=
  startswith p s ||
  match s with
  | EmptyString => false
  | String _ s' => contains p s'
  end.

(** [s.split('\n')]: never empty, the empty string gives one empty line. *)
Fixpoint split_lines (s : string) : list string :=
  match s with
  | EmptyString => [EmptyString]
  | String c rest =>
      if Ascii.eqb c newline then EmptyString :: split_lines rest
      else match split_lines rest with
           | l :: ls => String c l :: ls
           | [] => [String c EmptyString]
           end
  end.

(** [bool(s)]: a string is truthy when it is not empty. *)
Definition truthy (s : string) : bool :=
  match s with EmptyString => false | String _ _ => true end.

(** [str(n)] for a non-negative integer. *)
Definition str_of_nat (n : nat) : string :=
  NilEmpty.string_of_uint (Nat.to_uint n).

(** [x in [a, b, ...]] for strings. *)
Definition mem (x : string) (l : list string) : bool :=
  existsb (String.eqb x) l.

(** [all(P(c) for c in s)] *)
Fixpoint all_chars (P : ascii -> bool) (s : string) : bool :=
  match s with
  | EmptyString => true
  | String c rest => P c && all_chars P rest
  end.

End PyStr.

Import PyStr.

(** The three severity labels the scanners attach to a finding. *)
Inductive Severity : Type := LOW | MEDIUM | HIGH.

(** The [status] key of every result. *)
Inductive Status : Type := success | error.

(* ================================================================= *)
(** ** check_security_issues *)

Module Security.

(** One entry of [security_issues]. *)
Record issue : Type := Issue {
  line : nat;
  pattern : string;
  message : string;
  severity : Severity;
  code_snippet : string
}.

(** The returned dict. *)
Record result : Type := Result {
  status : Status;
  issues_found : nat;
  security_issues : list issue;
  safe : bool
}.

(** The pattern table, in insertion order. *)
Definition dangerous_patterns : list (string * string) :=
  [ ("eval(", "Dangerous use of eval() - can execute arbitrary code");
    ("exec(", "Dangerous use of exec() - can execute arbitrary code");
    ("pickle.loads", "Unsafe deserialization with pickle - can execute code");
    ("__import__", "Dynamic imports can be security risk");
    ("os.system", "Direct system calls - prefer subprocess with shell=False");
    ("shell=True", "Shell injection risk - avoid shell=True in subprocess");
    ("sql", "Potential SQL injection - use parameterized queries");
    ("password", "Hardcoded password detected - use environment variables");
    ("api_key", "Hardcoded API key detected - use environment variables");
    ("SECRET", "Hardcoded secret detected - use environment variables") ].

(** ["HIGH" if pattern in ['eval(', 'exec(', 'pickle.loads'] else "MEDIUM"] *)
Definition severity_of (pattern : string) : Severity :=
  if mem pattern ["eval("; "exec("; "pickle.loads"] then HIGH else MEDIUM.

(** Body of the inner loop: one table entry tried on one line. *)
Definition try_pattern (i : nat) (line : string) (line_lower : string)
    (security_issues : list issue) (entry : string * string) : list issue :=
  let '(pattern, message) := entry in
  if contains pattern line_lower then
    security_issues ++
      [ {| line := i; pattern := pattern; message := message;
           severity := severity_of pattern;
           code_snippet := strip line |} ]
  else security_issues.

(** Body of the outer loop: every table entry tried on line [i]. *)
Definition scan_line (i : nat) (line : string)
    (security_issues : list issue) : list issue :=
  let line_lower := lower line in
  fold_left (try_pattern i line line_lower) dangerous_patterns security_issues.

(** [for i, line in enumerate(lines, i): ...] *)
Fixpoint scan_lines (i : nat) (lines : list string)
    (security_issues : list issue) : list issue :=
  match lines with
  | [] => security_issues
  | line :: rest => scan_lines (S i) rest (scan_line i line security_issues)
  end.

Definition check_security_issues (code : string) : result :=
  let security_issues := [] in
  let lines := split_lines code in
  let security_issues := scan_lines 1 lines security_issues in
  {| status := success;
     issues_found := length security_issues;
     security_issues := security_issues;
     safe := length security_issues =? 0 |}.

End Security.

(* ================================================================= *)
(** ** check_performance_issues *)

Module Performance.

(** One entry of [performance_issues]; it has no [pattern] key. *)
Record issue : Type := Issue {
  line : nat;
  message : string;
  severity : Severity;
  code_snippet : string
}.

Record result : Type := Result {
  status : Status;
  issues_found : nat;
  performance_issues : list issue;
  optimized : bool
}.

Definition patterns : list (string * string) :=
  [ ("for i in range(len(", "Use enumerate() instead of range(len())");
    (".append(", "Consider list comprehension if building list in loop");
    ("global ", "Global variables can hurt performance and readability");
    ("+ str(", "String concatenation in loop - use join() or f-strings");
    ("try:", "Empty except blocks hide errors (if found)") ].

(** The [if]/[elif] that tracks the loop flag, on the stripped line. *)
Definition track_loop (stripped : string) (in_loop : bool) : bool :=
  if startswith_any ["for "; "while "] stripped then true
  else if truthy stripped && negb (startswith " " stripped) && in_loop
       then false
       else in_loop.

(** Body of the inner loop. *)
Definition try_pattern (i : nat) (stripped : string) (in_loop : bool)
    (performance_issues : list issue) (entry : string * string)
    : list issue :=
  let '(pattern, message) := entry in
  if contains pattern stripped then
    if String.eqb pattern ".append(" && in_loop then
      performance_issues ++
        [ {| line := i; message := message; severity := LOW;
             code_snippet := stripped |} ]
    else if negb (String.eqb pattern ".append(") then
      performance_issues ++
        [ {| line := i; message := message; severity := MEDIUM;
             code_snippet := stripped |} ]
    else performance_issues
  else performance_issues.

(** Body of the outer loop; the state is the flag and the list. *)
Definition scan_line (i : nat) (line : string)
    (st : bool * list issue) : bool * list issue :=
  let '(in_loop, performance_issues) := st in
  let stripped := strip line in
  let in_loop := track_loop stripped in_loop in
  (in_loop,
   fold_left (try_pattern i stripped in_loop) patterns performance_issues).

Fixpoint scan_lines (i : nat) (lines : list string)
    (st : bool * list issue) : bool * list issue :=
  match lines with
  | [] => st
  | line :: rest => scan_lines (S i) rest (scan_line i line st)
  end.

Definition check_performance_issues (code : string) : result :=
  let performance_issues := [] in
  let lines := split_lines code in
  let in_loop := false in
  let '(_, performance_issues) :=
    scan_lines 1 lines (in_loop, performance_issues) in
  {| status := success;
     issues_found := length performance_issues;
     performance_issues := performance_issues;
     optimized := length performance_issues =? 0 |}.

End Performance.

(* ================================================================= *)
(** ** The syntax tree that [ast.parse] returns

    Only statement-level nodes are kept.  Expression nodes never hold a
    statement, and none of them is an instance of a class the analyzers
    test for, so leaving them out changes neither which nodes the
    analyzers act on nor their relative order in [ast.walk].  The one
    expression the analyzers look into is the string constant of a
    docstring. *)

Module Ast.

Inductive expr : Type :=
| Constant_str (value : string)   (* [Constant] holding a [str] *)
| OtherExpr.                      (* any other expression *)

Inductive stmt : Type :=
| FunctionDef (name : string) (args : list string) (body : list stmt)
              (lineno : nat)
| AsyncFunctionDef (name : string) (args : list string) (body : list stmt)
                   (lineno : nat)
| ClassDef (name : string) (body : list stmt) (lineno : nat)
| Return (value : option expr)
| Import (names : list string)
| ImportFrom (module : option string) (names : list string) (level : nat)
| Expr (value : expr)
| Block (children : list stmt)
    (* any other node that holds statements: if, for, while, with, try,
       an except handler, a match case; [children] in field order *)
| Simple.
    (* any other statement: assignment, pass, ... *)

(** [args] of a function node is the list [node.args.args], by name:
    the parameters that can be passed by position or by keyword.  The
    other fields of [node.args] (the positional-only parameters before
    a [/], the keyword-only ones, [*args] and [**kwargs]) are read by
    neither analyzer and are left out; no count below includes them. *)

(** The root of the tree, [ast.Module]. *)
Inductive syntax_tree : Type := PyModule (body : list stmt).

Definition isinstance_FunctionDef (n : stmt) : bool :=
  match n with FunctionDef _ _ _ _ => true | _ => false end.

Definition isinstance_ClassDef (n : stmt) : bool :=
  match n with ClassDef _ _ _ => true | _ => false end.

Definition isinstance_Return (n : stmt) : bool :=
  match n with Return _ => true | _ => false end.

(** [ast.iter_child_nodes] *)
Definition iter_child_nodes (n : stmt) : list stmt :=
  match n with
  | FunctionDef _ _ body _ | AsyncFunctionDef _ _ body _
  | ClassDef _ body _ | Block body => body
  | _ => []
  end.

(** Number of nodes of a subtree. *)
Fixpoint size (n : stmt) : nat :=
  match n with
  | FunctionDef _ _ body _ | AsyncFunctionDef _ _ body _
  | ClassDef _ body _ | Block body => S (list_sum (map size body))
  | _ => 1
  end.

Definition size_all (todo : list stmt) : nat := list_sum (map size todo).

(** The loop of [ast.walk]: a queue, [popleft], [extend] with the
    children.  One unit of fuel per node taken from the queue. *)
Fixpoint walk_queue (fuel : nat) (todo : list stmt) : list stmt :=
  match fuel with
  | 0 => []
  | S fuel' =>
      match todo with
      | [] => []
      | node :: todo' =>
          node :: walk_queue fuel' (todo' ++ iter_child_nodes node)
      end
  end.

(** [ast.walk(node)] for a statement node. *)
Definition walk (node : stmt) : list stmt :=
  walk_queue (size node) [node].

(** [ast.walk(tree)] for the module, without the [Module] node itself,
    which is an instance of none of the classes tested. *)
Definition walk_module (tree : syntax_tree) : list stmt :=
  let '(PyModule body) := tree in walk_queue (size_all body) body.

(** Every node of the subtree of [n], the node itself first; and every
    statement node of a module.  [ast.walk] is measured against
    them. *)
Fixpoint subtree (n : stmt) : list stmt :=
  n :: match n with
       | FunctionDef _ _ body _ | AsyncFunctionDef _ _ body _
       | ClassDef _ body _ | Block body => flat_map subtree body
       | _ => []
       end.

Definition nodes_of (tree : syntax_tree) : list stmt :=
  let '(PyModule body) := tree in flat_map subtree body.

Definition isinstance_AsyncFunctionDef (n : stmt) : bool :=
  match n with AsyncFunctionDef _ _ _ _ => true | _ => false end.

(** What [ast.parse] raises, with the text [str(e)] of the exception. *)
Inductive exception : Type :=
| SyntaxError (str_e : string)
| OtherException (str_e : string).

(** [str(e)] *)
Definition str (e : exception) : string :=
  match e with SyntaxError str_e | OtherException str_e => str_e end.

Section Docstring.

(** [inspect.cleandoc], from the standard library. *)
Variable cleandoc : string -> string.

(** [ast.get_docstring(node)]; it is only called on function and
    class nodes. *)
Definition get_docstring (node : stmt) : option string :=
  match node with
  | FunctionDef _ _ body _ | AsyncFunctionDef _ _ body _
  | ClassDef _ body _ =>
      match body with
      | Expr (Constant_str text) :: _ => Some (cleandoc text)
      | _ => None
      end
  | _ => None
  end.

End Docstring.

End Ast.

Import Ast.

(* ================================================================= *)
(** ** analyze_code_structure *)

Module Structure.

Module FuncInfo.
Record t : Type := Make {
  name : string;
  args : nat;
  line_number : nat;
  has_docstring : bool
}.
End FuncInfo.

Module ClassInfo.
Record t : Type := Make {
  name : string;
  line_number : nat;
  methods : nat;
  has_docstring : bool
}.
End ClassInfo.

(** The [analysis] dict while it is filled; its [status] is the
    constant "success". *)
Record analysis_t : Type := Analysis {
  functions : list FuncInfo.t;
  classes : list ClassInfo.t;
  imports : list (option string);
  lines_of_code : nat;
  issues : list string
}.

(** The returned dict: the filled [analysis], or an error dict. *)
Inductive result : Type :=
| Success (a : analysis_t)
| Error (error_message : string).

Definition status (r : result) : Status :=
  match r with Success _ => success | Error _ => error end.

(** The keys of the returned dict. *)
Definition keys (r : result) : list string :=
  match r with
  | Success _ =>
      ["status"; "functions"; "classes"; "imports"; "lines_of_code";
       "issues"]
  | Error _ => ["status"; "error_message"]
  end.

Definition add_function (f : FuncInfo.t) (a : analysis_t) : analysis_t :=
  Analysis (functions a ++ [f]) (classes a) (imports a) (lines_of_code a)
           (issues a).

Definition add_class (c : ClassInfo.t) (a : analysis_t) : analysis_t :=
  Analysis (functions a) (classes a ++ [c]) (imports a) (lines_of_code a)
           (issues a).

Definition add_import (a : analysis_t) (m : option string) : analysis_t :=
  Analysis (functions a) (classes a) (imports a ++ [m]) (lines_of_code a)
           (issues a).

Definition add_issue (msg : string) (a : analysis_t) : analysis_t :=
  Analysis (functions a) (classes a) (imports a) (lines_of_code a)
           (issues a ++ [msg]).

Section Analyzer.

Variable parse : string -> exception + syntax_tree.
Variable cleandoc : string -> string.

(** Body of the loop over [ast.walk(tree)]. *)
Definition visit (analysis : analysis_t) (node : stmt) : analysis_t :=
  match node with
  | FunctionDef name args _ lineno =>
      let func_info :=
        {| FuncInfo.name := name;
           FuncInfo.args := length args;
           FuncInfo.line_number := lineno;
           FuncInfo.has_docstring :=
             match get_docstring cleandoc node with
             | Some _ => true | None => false end |} in
      let analysis := add_function func_info analysis in
      let analysis :=
        if negb (FuncInfo.has_docstring func_info) then
          add_issue ("Function '" ++ name ++ "' at line "
                     ++ str_of_nat lineno ++ " missing docstring")%string
                    analysis
        else analysis in
      if 5 <? FuncInfo.args func_info then
        add_issue ("Function '" ++ name ++ "' has "
                   ++ str_of_nat (FuncInfo.args func_info)
                   ++ " parameters (>5 suggests complexity)")%string
                  analysis
      else analysis
  | ClassDef name body lineno =>
      let class_info :=
        {| ClassInfo.name := name;
           ClassInfo.line_number := lineno;
           ClassInfo.methods :=
             length (filter isinstance_FunctionDef body);
           ClassInfo.has_docstring :=
             match get_docstring cleandoc node with
             | Some _ => true | None => false end |} in
      let analysis := add_class class_info analysis in
      if negb (ClassInfo.has_docstring class_info) then
        add_issue ("Class '" ++ name ++ "' at line "
                   ++ str_of_nat lineno ++ " missing docstring")%string
                  analysis
      else analysis
  | Import names =>
      fold_left (fun a alias_name => add_import a (Some alias_name))
                names analysis
  | ImportFrom module _ _ => add_import analysis module
  | _ => analysis
  end.

Definition analyze_code_structure (code : string) : result :=
  match parse code with
  | inr tree =>
      let analysis :=
        {| functions := []; classes := []; imports := [];
           lines_of_code := length (split_lines code);
           issues := [] |} in
      Success (fold_left visit (walk_module tree) analysis)
  | inl (SyntaxError str_e) =>
      Error ("Syntax error in code: " ++ str_e)%string
  | inl (OtherException str_e) =>
      Error ("Error analyzing code: " ++ str_e)%string
  end.

End Analyzer.

End Structure.

(* ================================================================= *)
(** ** check_documentation *)

Module Documentation.

Inductive node_type : Type := Function | Class.

(** One entry of [doc_issues]. *)
Record doc_issue : Type := DocIssue {
  line : nat;
  element : string;
  type : node_type;
  issue : string;
  severity : Severity
}.

Inductive result : Type :=
| Success (issues_found : nat) (documentation_issues : list doc_issue)
          (well_documented : bool)
| Error (error_message : string).

Definition status (r : result) : Status :=
  match r with Success _ _ _ => success | Error _ => error end.

(** The keys of the returned dict. *)
Definition keys (r : result) : list string :=
  match r with
  | Success _ _ _ =>
      ["status"; "issues_found"; "documentation_issues"; "well_documented"]
  | Error _ => ["status"; "error_message"]
  end.

Definition missing_docstring : string := "Missing docstring".
Definition too_brief : string := "Docstring too brief (< 20 chars)".
Definition undocumented_parameters : string :=
  "Docstring doesn't document parameters".
Definition undocumented_return : string :=
  "Docstring doesn't document return value".

(** [any(isinstance(n, ast.Return) for n in ast.walk(node) if n != node)].
    [!=] on nodes compares identity, and [node] itself is the first
    node that [ast.walk(node)] yields. *)
Definition has_return (node : stmt) : bool :=
  existsb isinstance_Return (tl (walk node)).

Section Auditor.

Variable parse : string -> exception + syntax_tree.
Variable cleandoc : string -> string.

(** The checks on a function node whose docstring is long enough. *)
Definition check_function (args : list string) (node : stmt)
    (lineno : nat) (name : string) (docstring : string)
    (doc_issues : list doc_issue) : list doc_issue :=
  let has_params := 0 <? length args in
  let mentions_params :=
    contains "Args:" docstring || contains "Parameters:" docstring in
  let doc_issues :=
    if has_params && negb mentions_params then
      doc_issues ++ [DocIssue lineno name Function
                              undocumented_parameters MEDIUM]
    else doc_issues in
  let has_return := has_return node in
  let mentions_return :=
    contains "Returns:" docstring || contains "Return:" docstring in
  if has_return && negb mentions_return then
    doc_issues ++ [DocIssue lineno name Function undocumented_return LOW]
  else doc_issues.

(** The [if]/[elif] chain on the docstring of a function or class. *)
Definition check_docstring (node : stmt) (lineno : nat) (name : string)
    (node_type : node_type) (function_args : option (list string))
    (doc_issues : list doc_issue) : list doc_issue :=
  let docstring := get_docstring cleandoc node in
  match docstring with
  | None | Some EmptyString =>
      doc_issues ++ [DocIssue lineno name node_type missing_docstring HIGH]
  | Some docstring =>
      if String.length docstring <? 20 then
        doc_issues ++ [DocIssue lineno name node_type too_brief MEDIUM]
      else
        match function_args with
        | Some args =>
            check_function args node lineno name docstring doc_issues
        | None => doc_issues
        end
  end.

(** Body of the loop over [ast.walk(tree)]. *)
Definition visit (doc_issues : list doc_issue) (node : stmt)
    : list doc_issue :=
  match node with
  | FunctionDef name args _ lineno =>
      check_docstring node lineno name Function (Some args) doc_issues
  | ClassDef name _ lineno =>
      check_docstring node lineno name Class None doc_issues
  | _ => doc_issues
  end.

Definition check_documentation (code : string) : result :=
  match parse code with
  | inr tree =>
      let doc_issues := fold_left visit (walk_module tree) [] in
      Success (length doc_issues) doc_issues (length doc_issues =? 0)
  | inl (SyntaxError str_e) | inl (OtherException str_e) => Error str_e
  end.

End Auditor.

End Documentation.

(* ================================================================= *)
(** ** Inputs used by the examples *)

Module Samples.

(** The line [password = "admin123"]. *)
Definition password_line : string :=
  ("password = " ++ String dquote ("admin123" ++ String dquote EmptyString))%string.

(** An import followed by that line. *)
Definition import_then_password : string :=
  ("import os" ++ String newline password_line)%string.

(** A call of [eval] spelled in capitals, and the issue it yields. *)
Definition eval_line : string := "x = EVAL(y)  ".

Definition eval_issue : Security.issue :=
  Security.Issue 1 "eval("
    "Dangerous use of eval() - can execute arbitrary code" HIGH "x = EVAL(y)".

(** A loop header followed by an indented append. *)
Definition loop_with_append : string :=
  ("for i in items:" ++ String newline "    out.append(i)")%string.

(** An assignment to a name spelled [SECRET], and one spelled [secret]. *)
Definition secret_line : string :=
  ("SECRET = " ++ String dquote ("abc123" ++ String dquote EmptyString))%string.

Definition secret_lower_line : string :=
  ("secret = " ++ String dquote ("abc123" ++ String dquote EmptyString))%string.

(** [async def fetch(url):] with a body that returns [url]. *)
Definition async_source : string :=
  ("async def fetch(url):" ++ String newline "    return url")%string.

Definition async_tree : syntax_tree :=
  PyModule [AsyncFunctionDef "fetch" ["url"] [Return (Some OtherExpr)] 1].

(** [from . import x] *)
Definition relative_import_source : string := "from . import x".

Definition relative_import_tree : syntax_tree :=
  PyModule [ImportFrom None ["x"] 1].

(** A documented function whose only return statement is bare. *)
Definition stop_docstring : string :=
  "Stops the job when there is nothing to do.".

Definition stop_source : string :=
  ("def stop():" ++ String newline
     ("    '''" ++ stop_docstring ++ "'''" ++ String newline
        "    return"))%string.

Definition stop_function : stmt :=
  FunctionDef "stop" [] [Expr (Constant_str stop_docstring); Return None] 1.

(** A function without a docstring. *)
Definition first_source : string :=
  ("def first(a, b):" ++ String newline "    return a")%string.

Definition first_function : stmt :=
  FunctionDef "first" ["a"; "b"] [Return (Some OtherExpr)] 1.

(** Text that is not Python. *)
Definition broken_source : string := "def f(:".

(** [ast.parse] on the inputs above, and a syntax error elsewhere. *)
Definition parse (code : string) : exception + syntax_tree :=
  if String.eqb code async_source then inr async_tree
  else if String.eqb code relative_import_source
       then inr relative_import_tree
  else if String.eqb code stop_source then inr (PyModule [stop_function])
  else if String.eqb code first_source then inr (PyModule [first_function])
  else if String.eqb code "pass" then inr (PyModule [Simple])
  else inl (SyntaxError "invalid syntax (<unknown>, line 1)").

(** [inspect.cleandoc] on a docstring of one line with no white space
    around it. *)
Definition cleandoc (doc : string) : string := doc.

(** A class with a plain method, an async method and no docstring, and
    a top-level import of two modules. *)
Definition shapes_source : string :=
  ("import os, sys" ++ String newline
     ("class Shape:" ++ String newline
        ("    def area(self):" ++ String newline
           ("        return 0" ++ String newline
              ("    async def load(self):" ++ String newline
                 "        pass")))))%string.

Definition shape_class : stmt :=
  ClassDef "Shape"
    [ FunctionDef "area" ["self"] [Return (Some OtherExpr)] 3;
      AsyncFunctionDef "load" ["self"] [Simple] 5 ] 2.

Definition shapes_tree : syntax_tree :=
  PyModule [Import ["os"; "sys"]; shape_class].

(** [ast.parse] on [shapes_source], and a syntax error elsewhere. *)
Definition parse_shapes (code : string) : exception + syntax_tree :=
  if String.eqb code shapes_source then inr shapes_tree
  else inl (SyntaxError "invalid syntax (<unknown>, line 1)").

(** A function of two parameters whose docstring names neither them nor
    the value it returns. *)
Definition scale_docstring : string := "Scales x by the factor k.".

Definition scale_function : stmt :=
  FunctionDef "scale" ["x"; "k"]
    [Expr (Constant_str scale_docstring); Return (Some OtherExpr)] 1.

(** A function that returns nothing itself and defines one that does. *)
Definition helper_function : stmt :=
  FunctionDef "helper" [] [Return (Some OtherExpr)] 3.

Definition setup_function : stmt :=
  FunctionDef "setup" []
    [Expr (Constant_str "Registers the helper and stops."); helper_function]
    1.

(** A function whose docstring is the empty string. *)
Definition quiet_source : string :=
  ("def quiet():" ++ String newline
     ("    ''" ++ String newline "    pass"))%string.

Definition quiet_function : stmt :=
  FunctionDef "quiet" [] [Expr (Constant_str EmptyString); Simple] 1.

(** The source of [scale_function]. *)
Definition scale_source : string :=
  ("def scale(x, k):" ++ String newline
     ("    '''" ++ scale_docstring ++ "'''" ++ String newline
        "    return x * k"))%string.

(** [ast.parse] on these two inputs, and a syntax error elsewhere. *)
Definition parse_documented (code : string) : exception + syntax_tree :=
  if String.eqb code quiet_source then inr (PyModule [quiet_function])
  else if String.eqb code scale_source then inr (PyModule [scale_function])
  else inl (SyntaxError "invalid syntax (<unknown>, line 1)").

(** The loop of [loop_with_append], with its body not indented. *)
Definition loop_with_append_flat : string :=
  ("for i in items:" ++ String newline "out.append(i)")%string.

(** An append on the line of the loop header. *)
Definition loop_on_one_line : string := "for x in xs: out.append(x)".

Definition append_issue : Performance.issue :=
  Performance.Issue 1 "Consider list comprehension if building list in loop"
                    LOW loop_on_one_line.

End Samples.

(* ================================================================= *)
(** ** Notions used to state properties of the results *)

Module Notions.

(** [s.count('\n')] *)
Fixpoint count_newlines (s : string) : nat :=
  match s with
  | EmptyString => 0
  | String c rest =>
      (if Ascii.eqb c newline then 1 else 0) + count_newlines rest
  end.

(** A security issue, [n] lines further down. *)
Definition sec_shift (n : nat) (f : Security.issue) : Security.issue :=
  Security.Issue (n + Security.line f) (Security.pattern f)
                 (Security.message f) (Security.severity f)
                 (Security.code_snippet f).

(** A security issue with its snippet in lower case. *)
Definition lower_snippet (f : Security.issue) : Security.issue :=
  Security.Issue (Security.line f) (Security.pattern f)
                 (Security.message f) (Security.severity f)
                 (lower (Security.code_snippet f)).

(** A performance issue, [n] lines further down. *)
Definition perf_shift (n : nat) (f : Performance.issue)
    : Performance.issue :=
  Performance.Issue (n + Performance.line f) (Performance.message f)
                    (Performance.severity f) (Performance.code_snippet f).

(** [stripped.startswith(('for ', 'while '))] *)
Definition is_loop_header (stripped : string) : bool :=
  startswith_any ["for "; "while "] stripped.

(** An [analysis] with nothing in it. *)
Definition blank : Structure.analysis_t := Structure.Analysis [] [] [] 0 [].

(** The count of structure issues, read off the records: one for each
    function without a docstring, one for each function of more than
    five parameters, one for each class without a docstring. *)
Definition issues_accounted (a : Structure.analysis_t) : Prop :=
  length (Structure.issues a) =
  length (filter (fun f => negb (Structure.FuncInfo.has_docstring f))
                 (Structure.functions a))
  + length (filter (fun f => 5 <? Structure.FuncInfo.args f)
                   (Structure.functions a))
  + length (filter (fun c => negb (Structure.ClassInfo.has_docstring c))
                   (Structure.classes a)).

(** [a == b] on the two kinds of definition the auditor reports. *)
Definition node_type_eqb (a b : Documentation.node_type) : bool :=
  match a, b with
  | Documentation.Function, Documentation.Function => true
  | Documentation.Class, Documentation.Class => true
  | _, _ => false
  end.

(** The node is the definition of the given kind with the given name
    on the given line. *)
Definition defines (ty : Documentation.node_type) (name : string)
    (lineno : nat) (n : stmt) : bool :=
  match n with
  | FunctionDef name' _ _ lineno' =>
      node_type_eqb Documentation.Function ty
      && String.eqb name' name && (lineno' =? lineno)
  | ClassDef name' _ lineno' =>
      node_type_eqb Documentation.Class ty
      && String.eqb name' name && (lineno' =? lineno)
  | _ => false
  end.

(** The issue is about the definition of the given kind with the given
    name on the given line. *)
Definition about (ty : Documentation.node_type) (name : string)
    (lineno : nat) (i : Documentation.doc_issue) : bool :=
  node_type_eqb (Documentation.type i) ty
  && String.eqb (Documentation.element i) name
  && (Documentation.line i =? lineno).

(** The function record is that of the given name on the given line. *)
Definition record_of (name : string) (lineno : nat)
    (f : Structure.FuncInfo.t) : bool :=
  node_type_eqb Documentation.Function Documentation.Function
  && String.eqb (Structure.FuncInfo.name f) name
  && (Structure.FuncInfo.line_number f =? lineno).

End Notions.

Import Notions.

(* ================================================================= *)
(** * Properties *)

(** ** Strings *)

Section StringFacts.

Lemma startswith_app (p s : string) :
  startswith p (p ++ s) = true.
Proof.
  induction p as [|a p IH]; simpl; [reflexivity|].
  now rewrite Ascii.eqb_refl.
Qed.

Lemma startswith_inv (p s : string) :
  startswith p s = true -> exists post, s = (p ++ post)%string.
Proof.
  revert s; induction p as [|a p IH]; intros s H.
  - now exists s.
  - destruct s as [|b s]; simpl in H; [discriminate|].
    apply andb_true_iff in H as [Hab Hps].
    apply Ascii.eqb_eq in Hab; subst b.
    destruct (IH _ Hps) as [post ->].
    now exists post.
Qed.

Lemma startswith_contains (p s : string) :
  startswith p s = true -> contains p s = true.
Proof. intros H. destruct s; simpl; now rewrite H. Qed.

(** [contains] is the substring test. *)
Lemma contains_iff (p s : string) :
  contains p s = true <->
  exists pre post, s = (pre ++ p ++ post)%string.
Proof.
  split.
  - induction s as [|c s IH]; simpl; intros H.
    + rewrite orb_false_r in H.
      destruct (startswith_inv _ _ H) as [post ->]. now exists EmptyString, post.
    + apply orb_true_iff in H as [H|H].
      * destruct (startswith_inv _ _ H) as [post ->]. now exists EmptyString, post.
      * destruct (IH H) as (pre & post & ->).
        now exists (String c pre), post.
  - intros (pre & post & ->).
    induction pre as [|c pre IH].
    + change (contains p (p ++ post) = true).
      apply startswith_contains, startswith_app.
    + change (contains p (String c (pre ++ p ++ post)) = true).
      simpl. rewrite IH. apply orb_true_r.
Qed.

Lemma lower_app (a b : string) :
  lower (a ++ b) = (lower a ++ lower b)%string.
Proof. induction a as [|c a IH]; simpl; [reflexivity | now rewrite IH]. Qed.

(** Lower-casing acts inside a substring as it does outside. *)
Lemma contains_lower (w line : string) :
  contains w line = true -> contains (lower w) (lower line) = true.
Proof.
  intros H. apply contains_iff in H as (pre & post & ->).
  apply contains_iff. exists (lower pre), (lower post).
  now rewrite !lower_app.
Qed.

Lemma lower_char_not_upper (c : ascii) : isupper (lower_char c) = false.
Proof. destruct c as [[] [] [] [] [] [] [] []]; reflexivity. Qed.

Lemma all_chars_app P (a b : string) :
  all_chars P (a ++ b) = all_chars P a && all_chars P b.
Proof.
  induction a as [|c a IH]; simpl; [reflexivity|].
  now rewrite IH, andb_assoc.
Qed.

Lemma lower_no_upper (s : string) :
  all_chars (fun c => negb (isupper c)) (lower s) = true.
Proof.
  induction s as [|c s IH]; simpl; [reflexivity|].
  now rewrite lower_char_not_upper, IH.
Qed.

(** A pattern that holds an upper-case letter is found in no
    lower-cased line. *)
Lemma upper_pattern_never_in_lower (p s : string) :
  all_chars (fun c => negb (isupper c)) p = false ->
  contains p (lower s) = false.
Proof.
  intros Hp. destruct (contains p (lower s)) eqn:E; [|reflexivity].
  apply contains_iff in E as (pre & post & E).
  pose proof (lower_no_upper s) as H.
  rewrite E, !all_chars_app, Hp in H.
  now rewrite andb_false_r in H.
Qed.

Lemma rstrip_head (c : ascii) (s : string) :
  isspace c = false -> exists kept, rstrip (String c s) = String c kept.
Proof.
  intros Hc. simpl. destruct (rstrip s) as [|d kept].
  - rewrite Hc. now exists EmptyString.
  - now exists (String d kept).
Qed.

Lemma lstrip_head (s : string) :
  lstrip s = EmptyString \/
  exists c rest, lstrip s = String c rest /\ isspace c = false.
Proof.
  induction s as [|c s IH]; simpl; [now left|].
  destruct (isspace c) eqn:E; [exact IH|].
  right. now exists c, s.
Qed.

(** A stripped string is empty or starts with a character that is
    not white space. *)
Lemma strip_head (s : string) :
  strip s = EmptyString \/
  exists c rest, strip s = String c rest /\ isspace c = false.
Proof.
  unfold strip. destruct (lstrip_head s) as [-> | (c & rest & -> & Hc)].
  - now left.
  - right. destruct (rstrip_head c rest Hc) as [kept ->].
    now exists c, kept.
Qed.

(** So the test [stripped.startswith(' ')] never succeeds. *)
Lemma strip_never_starts_with_space (s : string) :
  startswith " " (strip s) = false.
Proof.
  destruct (strip_head s) as [-> | (c & rest & -> & Hc)]; [reflexivity|].
  change (startswith " " (String c rest))
    with (Ascii.eqb " " c && startswith EmptyString rest).
  destruct (Ascii.eqb_spec " "%char c) as [<- | _]; [discriminate|].
  reflexivity.
Qed.

End StringFacts.

(** ** Loops that only append *)

Section Appending.

Context {A B : Type}.
Variable step : list A -> B -> list A.
Hypothesis step_appends : forall acc b, step acc b = acc ++ step [] b.

(** A loop whose body only appends to the list returns the list it
    started from, followed by what each round adds. *)
Lemma fold_left_appends (l : list B) (acc : list A) :
  fold_left step l acc = acc ++ flat_map (step []) l.
Proof.
  revert acc; induction l as [|b l IH]; intros acc; simpl.
  - now rewrite app_nil_r.
  - rewrite IH, step_appends. now rewrite <- app_assoc.
Qed.

End Appending.

Lemma filter_none {A : Type} (keep : A -> bool) (l : list A) :
  (forall x, In x l -> keep x = false) -> filter keep l = [].
Proof.
  induction l as [|x l IH]; intros H; simpl; [reflexivity|].
  rewrite (H x (or_introl eq_refl)). apply IH.
  intros y Hy. apply H. now right.
Qed.

(** ** Security scanner *)

Section SecurityFacts.

Import Security.

Lemma sec_try_pattern_appends i ln ll acc e :
  try_pattern i ln ll acc e = acc ++ try_pattern i ln ll [] e.
Proof.
  unfold try_pattern. destruct e as [p m].
  destruct (contains p ll); [reflexivity | now rewrite app_nil_r].
Qed.

Lemma sec_scan_line_flat_map i ln acc :
  scan_line i ln acc =
  acc ++ flat_map (try_pattern i ln (lower ln) []) dangerous_patterns.
Proof.
  unfold scan_line. apply fold_left_appends.
  intros; apply sec_try_pattern_appends.
Qed.

Lemma sec_scan_line_appends i ln acc :
  scan_line i ln acc = acc ++ scan_line i ln [].
Proof. now rewrite (sec_scan_line_flat_map i ln acc), (sec_scan_line_flat_map i ln []). Qed.

Lemma sec_scan_lines_appends lines : forall i acc,
  scan_lines i lines acc = acc ++ scan_lines i lines [].
Proof.
  induction lines as [|ln lines IH]; intros i acc; simpl.
  - now rewrite app_nil_r.
  - rewrite (IH (S i) (scan_line i ln acc)), (IH (S i) (scan_line i ln [])).
    rewrite (sec_scan_line_appends i ln acc). now rewrite app_assoc.
Qed.

Lemma sec_scan_lines_cons i ln lines :
  scan_lines i (ln :: lines) [] = scan_line i ln [] ++ scan_lines (S i) lines [].
Proof. simpl. apply sec_scan_lines_appends. Qed.

(** The issues of one line: one per table entry found in the
    lower-cased line, in table order. *)
Lemma sec_in_scan_line i ln f :
  In f (scan_line i ln []) <->
  exists p m, In (p, m) dangerous_patterns /\
              contains p (lower ln) = true /\
              f = Issue i p m (severity_of p) (strip ln).
Proof.
  rewrite sec_scan_line_flat_map.
  rewrite (app_nil_l (flat_map _ _)), in_flat_map. split.
  - intros ([p m] & Hin & Hf). unfold try_pattern in Hf.
    destruct (contains p (lower ln)) eqn:E; [|contradiction].
    destruct Hf as [<- | []]. now exists p, m.
  - intros (p & m & Hin & Hc & ->). exists (p, m). split; [exact Hin|].
    unfold try_pattern. rewrite Hc. now left.
Qed.

(** The issues of a whole input: those of each of its lines. *)
Lemma sec_in_scan_lines lines : forall i f,
  In f (scan_lines i lines []) <->
  exists k ln, nth_error lines k = Some ln /\ In f (scan_line (i + k) ln []).
Proof.
  induction lines as [|ln lines IH]; intros i f.
  - simpl. split; [contradiction|]. intros (k & l & H & _).
    now destruct k.
  - rewrite sec_scan_lines_cons, in_app_iff, IH. split.
    + intros [H | (k & l & Hk & H)].
      * exists 0, ln. now rewrite Nat.add_0_r.
      * exists (S k), l. now rewrite Nat.add_succ_r.
    + intros (k & l & Hk & H). destruct k as [|k]; simpl in Hk.
      * injection Hk as <-. left. now rewrite Nat.add_0_r in H.
      * right. exists k, l. now rewrite Nat.add_succ_r in H.
Qed.

Lemma sec_scan_line_line i ln f : In f (scan_line i ln []) -> line f = i.
Proof. intros H. apply sec_in_scan_line in H as (p & m & _ & _ & ->). reflexivity. Qed.

Lemma sec_filter_scan_line i j ln :
  filter (fun f => line f =? j) (scan_line i ln []) =
  if i =? j then scan_line i ln [] else [].
Proof.
  pose proof (sec_scan_line_line i ln) as H.
  induction (scan_line i ln []) as [|f l IH].
  - now destruct (i =? j).
  - simpl. rewrite (H f (or_introl eq_refl)).
    rewrite IH by (intros g Hg; apply H; now right).
    now destruct (i =? j).
Qed.

(** The issues reported for line number [j] are those of the line at
    that place, and nothing else. *)
Lemma sec_filter_scan_lines lines : forall i k ln,
  nth_error lines k = Some ln ->
  filter (fun f => line f =? i + k) (scan_lines i lines []) =
  scan_line (i + k) ln [].
Proof.
  induction lines as [|l0 lines IH]; intros i k ln Hk.
  - now destruct k.
  - rewrite sec_scan_lines_cons, filter_app, sec_filter_scan_line.
    destruct k as [|k]; simpl in Hk.
    + injection Hk as <-. rewrite Nat.add_0_r, Nat.eqb_refl.
      assert (E : filter (fun f => line f =? i) (scan_lines (S i) lines []) = []).
      { apply filter_none. intros f Hf.
        apply sec_in_scan_lines in Hf as (k & l & _ & Hf).
        apply sec_scan_line_line in Hf. rewrite Hf.
        apply Nat.eqb_neq. simpl. lia. }
      rewrite E. apply app_nil_r.
    + replace (i =? i + S k) with false by (symmetry; apply Nat.eqb_neq; lia).
      simpl. rewrite Nat.add_succ_r. apply (IH (S i) k ln Hk).
Qed.

End SecurityFacts.

Section SecurityClaims.

Import Security.

Lemma mem_iff (x : string) (l : list string) : mem x l = true <-> In x l.
Proof.
  unfold mem. rewrite existsb_exists. split.
  - intros (y & Hy & E). apply String.eqb_eq in E. now subst.
  - intros H. exists x. split; [exact H | apply String.eqb_refl].
Qed.

Lemma in_check_security_issues code f :
  In f (security_issues (check_security_issues code)) <->
  exists k ln, nth_error (split_lines code) k = Some ln /\
               In f (scan_line (S k) ln []).
Proof. unfold check_security_issues. simpl. apply sec_in_scan_lines. Qed.

(** C2, as the code has it: the table entry for secrets is spelled
    [SECRET] and is looked for in the lower-cased line, so it is never
    found.  No input yields an issue whose pattern is [SECRET]; a line
    that assigns to [secret] or to [SECRET] yields no issue at all. *)
Theorem security_secret_never_reported :
  (forall code,
     existsb (fun f => String.eqb (pattern f) "SECRET")
             (security_issues (check_security_issues code)) = false) /\
  check_security_issues Samples.secret_lower_line = Result success 0 [] true /\
  check_security_issues Samples.secret_line = Result success 0 [] true.
Proof.
  split; [|split; reflexivity].
  intros code.
  destruct (existsb _ _) eqn:E; [exfalso | reflexivity].
  apply existsb_exists in E as (f & Hf & Hp).
  apply String.eqb_eq in Hp.
  apply in_check_security_issues in Hf as (k & ln & _ & Hf).
  apply sec_in_scan_line in Hf as (p & m & _ & Hc & ->).
  simpl in Hp; subst p.
  now rewrite upper_pattern_never_in_lower in Hc.
Qed.

(** C5: in any input, the line [password = "admin123"] contributes
    exactly one issue: pattern [password], severity MEDIUM. *)
Theorem security_password_line (code : string) (k : nat) :
  nth_error (split_lines code) k = Some Samples.password_line ->
  filter (fun f => line f =? S k)
         (security_issues (check_security_issues code)) =
  [ Issue (S k) "password"
          "Hardcoded password detected - use environment variables"
          MEDIUM Samples.password_line ].
Proof.
  intros Hk.
  etransitivity; [exact (sec_filter_scan_lines _ 1 k _ Hk) | reflexivity].
Qed.

Lemma security_password_line_witness :
  nth_error (split_lines Samples.import_then_password) 1
    = Some Samples.password_line /\
  filter (fun f => line f =? 2)
         (security_issues
            (check_security_issues Samples.import_then_password)) =
  [ Issue 2 "password"
          "Hardcoded password detected - use environment variables"
          MEDIUM Samples.password_line ].
Proof.
  split; [reflexivity|].
  apply (security_password_line _ 1). reflexivity.
Defined.

(** C6: an issue whose pattern is [eval(], [exec(] or [pickle.loads]
    has severity HIGH, an issue for any other table pattern has
    severity MEDIUM, and a line that holds [eval(] in any letter case
    yields a HIGH issue. *)
Theorem security_severity_rule (code : string) :
  (forall f, In f (security_issues (check_security_issues code)) ->
     In (pattern f) (map fst dangerous_patterns) /\
     (In (pattern f) ["eval("; "exec("; "pickle.loads"] ->
      severity f = HIGH) /\
     (~ In (pattern f) ["eval("; "exec("; "pickle.loads"] ->
      severity f = MEDIUM)) /\
  (forall k ln w,
     nth_error (split_lines code) k = Some ln ->
     contains w ln = true -> lower w = "eval(" ->
     In (Issue (S k) "eval("
               "Dangerous use of eval() - can execute arbitrary code"
               HIGH (strip ln))
        (security_issues (check_security_issues code))).
Proof.
  split.
  - intros f Hf.
    apply in_check_security_issues in Hf as (k & ln & _ & Hf).
    apply sec_in_scan_line in Hf as (p & m & Hin & _ & ->).
    cbn [pattern severity].
    split; [now apply (in_map fst) in Hin|].
    unfold severity_of.
    destruct (mem p ["eval("; "exec("; "pickle.loads"]) eqn:E.
    + apply mem_iff in E. split; [reflexivity | now intros []].
    + split; [|reflexivity]. intros H.
      apply (proj2 (mem_iff p _)) in H. congruence.
  - intros k ln w Hk Hw Hlow.
    apply in_check_security_issues. exists k, ln. split; [exact Hk|].
    apply sec_in_scan_line.
    exists "eval(", "Dangerous use of eval() - can execute arbitrary code".
    split; [now left|]. split; [|reflexivity].
    rewrite <- Hlow. now apply contains_lower.
Qed.

Lemma security_severity_rule_witness :
  In Samples.eval_issue
     (security_issues (check_security_issues Samples.eval_line)) /\
  severity Samples.eval_issue = HIGH.
Proof.
  assert (Hin : In Samples.eval_issue
                   (security_issues
                      (check_security_issues Samples.eval_line))).
  { apply (proj2 (security_severity_rule Samples.eval_line)
             0 Samples.eval_line "EVAL("); reflexivity. }
  split; [exact Hin|].
  apply (proj1 (security_severity_rule Samples.eval_line)
           Samples.eval_issue Hin).
  simpl. now left.
Defined.

End SecurityClaims.

(** ** Performance scanner *)

Section PerformanceFacts.

Import Performance.

(** What the flag is after a line: set by a loop header, kept by a
    blank line, cleared by every other line. *)
Lemma track_loop_strip (ln : string) (in_loop : bool) :
  track_loop (strip ln) in_loop =
  startswith_any ["for "; "while "] (strip ln)
  || (negb (truthy (strip ln)) && in_loop).
Proof.
  unfold track_loop. rewrite strip_never_starts_with_space.
  destruct (startswith_any _ _); [reflexivity|].
  destruct (truthy (strip ln)), in_loop; reflexivity.
Qed.

Lemma perf_try_pattern_appends i stripped b acc e :
  try_pattern i stripped b acc e = acc ++ try_pattern i stripped b [] e.
Proof.
  unfold try_pattern. destruct e as [p m].
  destruct (contains p stripped); [|now rewrite app_nil_r].
  destruct (String.eqb p ".append(" && b); [reflexivity|].
  destruct (negb (String.eqb p ".append(")); [reflexivity|].
  now rewrite app_nil_r.
Qed.

Lemma perf_scan_line_eq i ln b acc :
  scan_line i ln (b, acc) =
  (track_loop (strip ln) b,
   acc ++ flat_map (try_pattern i (strip ln) (track_loop (strip ln) b) [])
                   patterns).
Proof.
  unfold scan_line. f_equal. apply fold_left_appends.
  intros; apply perf_try_pattern_appends.
Qed.

Lemma contains_truthy (p s : string) :
  truthy p = true -> contains p s = true -> truthy s = true.
Proof. destruct p, s; simpl; auto; discriminate. Qed.

(** A LOW issue comes from a line that is itself a loop header. *)
Lemma low_issue_on_header i ln b f :
  In f (snd (scan_line i ln (b, []))) -> severity f = LOW ->
  startswith_any ["for "; "while "] (strip ln) = true.
Proof.
  rewrite perf_scan_line_eq. cbn [snd]. rewrite app_nil_l, in_flat_map.
  intros ([p m] & _ & Hf) Hlow. unfold try_pattern in Hf.
  destruct (contains p (strip ln)) eqn:Hc; [|contradiction].
  destruct (String.eqb_spec p ".append(") as [-> | _]; simpl in Hf.
  - rewrite track_loop_strip in Hf.
    destruct (startswith_any _ _); [reflexivity|].
    rewrite (contains_truthy ".append(" _ eq_refl Hc) in Hf. simpl in Hf.
    contradiction.
  - destruct Hf as [<- | []]. discriminate.
Qed.

Lemma perf_scan_lines_issues lines : forall i b acc f,
  In f (snd (scan_lines i lines (b, acc))) ->
  In f acc \/
  exists k ln b', nth_error lines k = Some ln /\
                  In f (snd (scan_line (i + k) ln (b', []))).
Proof.
  induction lines as [|ln lines IH]; intros i b acc f H.
  - now left.
  - cbn [scan_lines] in H. rewrite perf_scan_line_eq in H. apply IH in H as [H | (k & l & b' & Hk & H)].
    + apply in_app_iff in H as [H | H]; [now left|].
      right. exists 0, ln, b. split; [reflexivity|].
      rewrite Nat.add_0_r, perf_scan_line_eq. exact H.
    + right. exists (S k), l, b'. now rewrite Nat.add_succ_r.
Qed.

(** Every LOW issue of a result sits on a line that, once stripped,
    starts with [for ] or [while ]. *)
Lemma low_issues_only_on_headers code f :
  In f (performance_issues (check_performance_issues code)) ->
  severity f = LOW ->
  exists k ln, nth_error (split_lines code) k = Some ln /\
               startswith_any ["for "; "while "] (strip ln) = true.
Proof.
  unfold check_performance_issues.
  destruct (scan_lines 1 (split_lines code) (false, [])) as [b l] eqn:E.
  cbn [performance_issues]. intros Hf Hlow.
  assert (H : In f (snd (scan_lines 1 (split_lines code) (false, []))))
    by now rewrite E.
  apply perf_scan_lines_issues in H as [[] | (k & ln & b' & Hk & H)].
  exists k, ln. split; [exact Hk|].
  exact (low_issue_on_header _ _ _ _ H Hlow).
Qed.

(** C1, as the code has it: the flag is tested on the stripped line,
    so the first line of a loop body clears it before the append test
    runs.  A [for] header followed by an indented [.append(] line
    yields no issue; whatever the indentation, the flag stays set only
    over blank lines. *)
Theorem performance_append_in_loop_body_unreported :
  check_performance_issues Samples.loop_with_append
    = Result success 0 [] true /\
  (forall ln in_loop,
     track_loop (strip ln) in_loop =
     startswith_any ["for "; "while "] (strip ln)
     || (negb (truthy (strip ln)) && in_loop)).
Proof. split; [reflexivity | exact track_loop_strip]. Qed.

End PerformanceFacts.

(** ** The tree walk *)

Section WalkFacts.

Lemma size_children (n : stmt) :
  size n = S (size_all (iter_child_nodes n)).
Proof. destruct n; reflexivity. Qed.

Lemma subtree_children (n : stmt) :
  subtree n = n :: flat_map subtree (iter_child_nodes n).
Proof. destruct n; reflexivity. Qed.

Lemma size_all_app (q r : list stmt) :
  size_all (q ++ r) = size_all q + size_all r.
Proof. unfold size_all. now rewrite map_app, list_sum_app. Qed.

(** With one unit of fuel per node the queue runs empty: the walk
    yields every node of every subtree in the queue, each once. *)
Lemma walk_queue_complete (fuel : nat) : forall todo,
  size_all todo <= fuel ->
  Permutation.Permutation (walk_queue fuel todo) (flat_map subtree todo).
Proof.
  induction fuel as [|fuel IH]; intros todo Hfuel.
  - destruct todo as [|n todo]; [constructor|].
    unfold size_all in Hfuel. simpl in Hfuel.
    rewrite size_children in Hfuel. lia.
  - destruct todo as [|n todo]; [constructor|].
    cbn [walk_queue flat_map]. rewrite subtree_children.
    cbn [app]. constructor.
    etransitivity.
    + apply IH. rewrite size_all_app.
      unfold size_all in Hfuel |- *. simpl in Hfuel.
      rewrite size_children in Hfuel. unfold size_all in Hfuel. lia.
    + rewrite flat_map_app. apply Permutation.Permutation_app_comm.
Qed.

(** More fuel than nodes changes nothing. *)
Lemma walk_queue_enough (extra : nat) : forall fuel todo,
  size_all todo <= fuel ->
  walk_queue (fuel + extra) todo = walk_queue fuel todo.
Proof.
  induction fuel as [|fuel IH]; intros todo Hfuel.
  - destruct todo as [|n todo]; [now destruct extra|].
    unfold size_all in Hfuel. simpl in Hfuel.
    rewrite size_children in Hfuel. lia.
  - destruct todo as [|n todo]; [reflexivity|].
    cbn [walk_queue Nat.add]. f_equal. apply IH.
    rewrite size_all_app. unfold size_all in Hfuel |- *. simpl in Hfuel.
    rewrite size_children in Hfuel. unfold size_all in Hfuel. lia.
Qed.

Lemma walk_head (node : stmt) :
  walk node =
  node :: walk_queue (size_all (iter_child_nodes node))
                     (iter_child_nodes node).
Proof. unfold walk. rewrite size_children. reflexivity. Qed.

(** [ast.walk(tree)] reaches exactly the nodes of the tree. *)
Lemma in_walk_module (tree : syntax_tree) (n : stmt) :
  In n (walk_module tree) <-> In n (nodes_of tree).
Proof.
  destruct tree as [body]. unfold walk_module, nodes_of.
  pose proof (walk_queue_complete (size_all body) body (le_n _)) as P.
  split; intros H.
  - exact (Permutation.Permutation_in _ P H).
  - exact (Permutation.Permutation_in _ (Permutation.Permutation_sym P) H).
Qed.

(** The nodes [ast.walk(node)] yields after [node] itself are the
    nodes of its nested body. *)
Lemma in_walk_tail (node n : stmt) :
  In n (tl (walk node)) <->
  In n (flat_map subtree (iter_child_nodes node)).
Proof.
  rewrite walk_head. cbn [tl].
  pose proof (walk_queue_complete _ (iter_child_nodes node) (le_n _)) as P.
  split; intros H.
  - exact (Permutation.Permutation_in _ P H).
  - exact (Permutation.Permutation_in _ (Permutation.Permutation_sym P) H).
Qed.

End WalkFacts.

(** ** Documentation auditor *)

Section DocumentationFacts.

Import Documentation.

Variable cleandoc : string -> string.

Lemma check_function_appends args node lineno name docstring acc :
  check_function args node lineno name docstring acc =
  acc ++ check_function args node lineno name docstring [].
Proof.
  unfold check_function.
  destruct (_ && _), (_ && _); cbn [app];
    rewrite <- ?app_assoc, ?app_nil_r; reflexivity.
Qed.

Lemma check_docstring_appends node lineno name ty fargs acc :
  check_docstring cleandoc node lineno name ty fargs acc =
  acc ++ check_docstring cleandoc node lineno name ty fargs [].
Proof.
  unfold check_docstring.
  destruct (get_docstring cleandoc node) as [[|c d]|]; try reflexivity.
  destruct (_ <? 20); [reflexivity|].
  destruct fargs; [apply check_function_appends | now rewrite app_nil_r].
Qed.

Lemma doc_visit_appends acc node :
  visit cleandoc acc node = acc ++ visit cleandoc [] node.
Proof.
  destruct node; cbn [visit]; try (now rewrite app_nil_r);
    apply check_docstring_appends.
Qed.

(** What the auditor reports for a function with an adequate
    docstring. *)
Lemma visit_adequate_function name args body lineno d :
  get_docstring cleandoc (FunctionDef name args body lineno) = Some d ->
  20 <= String.length d ->
  visit cleandoc [] (FunctionDef name args body lineno) =
  check_function args (FunctionDef name args body lineno) lineno name d [].
Proof.
  intros Hd Hlen. cbn [visit].
  unfold check_docstring. rewrite Hd.
  destruct d as [|c d]; [simpl in Hlen; lia|].
  replace (String.length (String c d) <? 20) with false; [reflexivity|].
  symmetry. apply Nat.ltb_ge. exact Hlen.
Qed.

Lemma has_return_iff (node : stmt) :
  has_return node = true <->
  exists value, In (Return value) (flat_map subtree (iter_child_nodes node)).
Proof.
  unfold has_return. rewrite existsb_exists. split.
  - intros (n & Hn & Hr). apply in_walk_tail in Hn.
    destruct n; try discriminate. now exists value.
  - intros (value & H). exists (Return value).
    split; [now apply in_walk_tail | reflexivity].
Qed.

Lemma return_issue_iff args node lineno name d :
  In (DocIssue lineno name Function undocumented_return LOW)
     (check_function args node lineno name d []) <->
  has_return node = true /\
  contains "Returns:" d = false /\ contains "Return:" d = false.
Proof.
  clear cleandoc. unfold check_function.
  destruct (has_return node), (contains "Returns:" d),
    (contains "Return:" d), ((0 <? length args) && _);
    cbn; split; intros H; try tauto; try (now auto);
    try (destruct H as (? & ? & ?); discriminate);
    try (destruct H as [H | H]; [discriminate | tauto]).
Qed.

End DocumentationFacts.

Section DocumentationNodes.

Import Documentation.

(** On one node: a function with an adequate docstring gets the LOW
    issue about its return exactly when its nested body holds a return
    statement and the docstring has neither marker. *)
Lemma visit_return_issue_iff (cleandoc : string -> string)
    (name : string) (args : list string) (body : list stmt)
    (lineno : nat) (d : string) :
  get_docstring cleandoc (FunctionDef name args body lineno) = Some d ->
  20 <= String.length d ->
  (In (DocIssue lineno name Function undocumented_return LOW)
      (visit cleandoc [] (FunctionDef name args body lineno)) <->
   (exists value, In (Return value) (flat_map subtree body)) /\
   contains "Returns:" d = false /\ contains "Return:" d = false).
Proof.
  intros Hd Hlen.
  rewrite (visit_adequate_function cleandoc name args body lineno d Hd Hlen).
  rewrite return_issue_iff, has_return_iff. cbn [iter_child_nodes].
  reflexivity.
Qed.

(** On one node: without a docstring the node gets one issue, with its
    own line, name and kind. *)
Lemma visit_missing_docstring (cleandoc : string -> string)
    (ty : node_type) (name : string) (lineno : nat) (node : stmt) :
  defines ty name lineno node = true ->
  get_docstring cleandoc node = None ->
  visit cleandoc [] node = [DocIssue lineno name ty missing_docstring HIGH].
Proof.
  intros Hdef Hdoc.
  destruct node; try discriminate Hdef; cbn [defines] in Hdef;
    destruct ty; try discriminate Hdef; cbn [node_type_eqb andb] in Hdef;
    apply andb_true_iff in Hdef as [Hn Hl];
    apply String.eqb_eq in Hn; apply Nat.eqb_eq in Hl; subst;
    cbn [visit]; unfold check_docstring; rewrite Hdoc; reflexivity.
Qed.

(** On one node: an issue for a missing or too brief docstring is the
    only issue of its node. *)
Lemma visit_exclusive (cleandoc : string -> string) (node : stmt)
    (i : doc_issue) :
  In i (visit cleandoc [] node) ->
  issue i = missing_docstring \/ issue i = too_brief ->
  visit cleandoc [] node = [i].
Proof.
  intros Hin Hissue.
  destruct node; cbn [visit] in *; try contradiction;
    unfold check_docstring in *;
    (destruct (get_docstring cleandoc _) as [[|c d]|];
     [ destruct Hin as [<- | []]; reflexivity
     | destruct (String.length (String c d) <? 20);
       [ destruct Hin as [<- | []]; reflexivity |]
     | destruct Hin as [<- | []]; reflexivity ]).
  - exfalso. unfold check_function in Hin.
    destruct (_ && _), (_ && _); cbn in Hin;
      repeat (destruct Hin as [<- | Hin]);
      try contradiction; destruct Hissue; discriminate.
  - contradiction.
Qed.

End DocumentationNodes.

(** ** Structure analyzer *)

Section StructureFacts.

Import Structure.

Variable cleandoc : string -> string.

Lemma add_imports_imports (names : list string) : forall a,
  imports (fold_left (fun a alias_name => add_import a (Some alias_name))
                     names a)
  = imports a ++ map Some names.
Proof.
  induction names as [|x names IH]; intros a; simpl.
  - now rewrite app_nil_r.
  - rewrite IH. simpl. now rewrite <- app_assoc.
Qed.

(** A node only ever adds to the end of [imports]. *)
Lemma visit_imports (a : analysis_t) (node : stmt) :
  exists added, imports (visit cleandoc a node) = imports a ++ added.
Proof.
  destruct node; cbn [visit];
    try (exists []; now rewrite app_nil_r).
  - exists []. rewrite app_nil_r.
    destruct (negb _), (5 <? _); reflexivity.
  - exists []. rewrite app_nil_r. destruct (negb _); reflexivity.
  - exists (map Some names). apply add_imports_imports.
  - now exists [module].
Qed.

Lemma fold_visit_keeps_imports (l : list stmt) : forall a m,
  In m (imports a) -> In m (imports (fold_left (visit cleandoc) l a)).
Proof.
  induction l as [|n l IH]; intros a m H; simpl; [exact H|].
  apply IH. destruct (visit_imports a n) as [added ->].
  apply in_app_iff. now left.
Qed.

(** The module of every [from ... import] node of the walk ends up in
    [imports], [None] included. *)
Lemma fold_visit_import_from (l : list stmt) : forall a module names level,
  In (ImportFrom module names level) l ->
  In module (imports (fold_left (visit cleandoc) l a)).
Proof.
  induction l as [|n l IH]; intros a module names level H; [contradiction|].
  destruct H as [-> | H]; simpl.
  - apply fold_visit_keeps_imports. apply in_app_iff. right. now left.
  - now apply (IH _ module names level).
Qed.

End StructureFacts.

(** A loop skips the nodes on which its body changes nothing. *)
Lemma fold_left_skip {S N : Type} (body : S -> N -> S) (skip : N -> bool) :
  (forall s n, skip n = true -> body s n = s) ->
  forall l s,
    fold_left body l s = fold_left body (filter (fun n => negb (skip n)) l) s.
Proof.
  intros Hskip l. induction l as [|n l IH]; intros s; simpl; [reflexivity|].
  destruct (skip n) eqn:E; simpl.
  - rewrite (Hskip s n E). apply IH.
  - apply IH.
Qed.

(** ** The analyzers that parse *)

Section TreeAnalyzerClaims.

Lemma contains_suffix (pre p : string) : contains p (pre ++ p) = true.
Proof.
  apply contains_iff. exists pre, EmptyString.
  f_equal. induction p as [|c p IH]; simpl; [reflexivity | now f_equal].
Qed.

(** C8: when parsing fails, each of the two analyzers returns an error
    result: its status is "error", its only other key is the message,
    and the message holds the text of the parser's exception.  Both
    functions are total: nothing is raised. *)
Theorem parse_failure_is_error_result
    (parse : string -> exception + syntax_tree)
    (cleandoc : string -> string) (code : string) (e : exception) :
  parse code = inl e ->
  (exists prefix,
     Structure.analyze_code_structure parse cleandoc code
       = Structure.Error (prefix ++ str e) /\
     contains (str e) (prefix ++ str e) = true) /\
  Structure.status (Structure.analyze_code_structure parse cleandoc code)
    = error /\
  Structure.keys (Structure.analyze_code_structure parse cleandoc code)
    = ["status"; "error_message"] /\
  Documentation.check_documentation parse cleandoc code
    = Documentation.Error (str e) /\
  Documentation.keys (Documentation.check_documentation parse cleandoc code)
    = ["status"; "error_message"].
Proof.
  intros He.
  unfold Structure.analyze_code_structure,
    Documentation.check_documentation.
  rewrite He. destruct e as [m | m]; cbn [str].
  - split; [exists "Syntax error in code: "; split;
              [reflexivity | apply contains_suffix]|].
    repeat split.
  - split; [exists "Error analyzing code: "; split;
              [reflexivity | apply contains_suffix]|].
    repeat split.
Qed.

Lemma parse_failure_is_error_result_witness :
  Structure.analyze_code_structure Samples.parse Samples.cleandoc
    Samples.broken_source
  = Structure.Error
      "Syntax error in code: invalid syntax (<unknown>, line 1)" /\
  Documentation.check_documentation Samples.parse Samples.cleandoc
    Samples.broken_source
  = Documentation.Error "invalid syntax (<unknown>, line 1)".
Proof.
  destruct (parse_failure_is_error_result Samples.parse Samples.cleandoc
              Samples.broken_source
              (SyntaxError "invalid syntax (<unknown>, line 1)") eq_refl)
    as ((prefix & Hs & _) & _ & _ & Hd & _).
  split; [reflexivity | exact Hd].
Defined.

(** C9: an [async def] node is matched by neither analyzer.  The body
    of either loop leaves its state as it was on such a node, so the
    result is the one computed from the walk with every such node
    left out: no function entry, no issue, no finding comes from
    it. *)
Theorem async_functions_are_skipped
    (parse : string -> exception + syntax_tree)
    (cleandoc : string -> string) :
  (forall analysis name args body lineno,
     Structure.visit cleandoc analysis
       (AsyncFunctionDef name args body lineno) = analysis) /\
  (forall doc_issues name args body lineno,
     Documentation.visit cleandoc doc_issues
       (AsyncFunctionDef name args body lineno) = doc_issues) /\
  (forall code tree,
     parse code = inr tree ->
     let seen :=
       filter (fun n => negb (isinstance_AsyncFunctionDef n))
              (walk_module tree) in
     Structure.analyze_code_structure parse cleandoc code =
     Structure.Success
       (fold_left (Structure.visit cleandoc) seen
          (Structure.Analysis [] [] [] (length (split_lines code)) [])) /\
     Documentation.check_documentation parse cleandoc code =
     let doc_issues := fold_left (Documentation.visit cleandoc) seen [] in
     Documentation.Success (length doc_issues) doc_issues
                           (length doc_issues =? 0)).
Proof.
  split; [reflexivity|]. split; [reflexivity|].
  intros code tree Hparse seen.
  unfold Structure.analyze_code_structure,
    Documentation.check_documentation.
  rewrite Hparse. unfold seen. split.
  - f_equal. apply fold_left_skip.
    intros s n Hn. destruct n; try discriminate. reflexivity.
  - cbv zeta.
    rewrite <- (fold_left_skip (Documentation.visit cleandoc)
                  isinstance_AsyncFunctionDef); [reflexivity|].
    intros s n Hn. destruct n; try discriminate. reflexivity.
Qed.

Lemma async_functions_are_skipped_witness :
  Structure.analyze_code_structure Samples.parse Samples.cleandoc
    Samples.async_source
  = Structure.Success (Structure.Analysis [] [] [] 2 []) /\
  Documentation.check_documentation Samples.parse Samples.cleandoc
    Samples.async_source
  = Documentation.Success 0 [] true.
Proof.
  destruct (proj2 (proj2 (async_functions_are_skipped Samples.parse
                            Samples.cleandoc))
              Samples.async_source Samples.async_tree eq_refl)
    as [Hs Hd].
  split; [rewrite Hs | rewrite Hd]; reflexivity.
Defined.

(** C10: a [from . import x] node has no module; the structure
    analyzer appends that absent module, [None], to [imports], and
    neither skips the node nor records the imported names. *)
Theorem relative_import_recorded_as_none
    (parse : string -> exception + syntax_tree)
    (cleandoc : string -> string) :
  (forall analysis names level,
     Structure.visit cleandoc analysis (ImportFrom None names level) =
     Structure.add_import analysis None) /\
  (forall code tree names level,
     parse code = inr tree ->
     In (ImportFrom None names level) (nodes_of tree) ->
     exists analysis,
       Structure.analyze_code_structure parse cleandoc code
         = Structure.Success analysis /\
       In None (Structure.imports analysis)).
Proof.
  split; [reflexivity|].
  intros code tree names level Hparse Hnode.
  unfold Structure.analyze_code_structure. rewrite Hparse.
  eexists. split; [reflexivity|].
  apply (fold_visit_import_from cleandoc _ _ None names level).
  now apply in_walk_module.
Qed.

Lemma relative_import_recorded_as_none_witness :
  Structure.analyze_code_structure Samples.parse Samples.cleandoc
    Samples.relative_import_source
  = Structure.Success (Structure.Analysis [] [] [None] 1 []) /\
  exists analysis,
    Structure.analyze_code_structure Samples.parse Samples.cleandoc
      Samples.relative_import_source = Structure.Success analysis /\
    In None (Structure.imports analysis).
Proof.
  split; [reflexivity|].
  apply (proj2 (relative_import_recorded_as_none Samples.parse
                  Samples.cleandoc)
           Samples.relative_import_source Samples.relative_import_tree
           ["x"] 1).
  - reflexivity.
  - simpl. now left.
Defined.

End TreeAnalyzerClaims.

(** ** The count of issues *)

Section IssueCounts.

(** C4, as the spec words it, fails for the structure analyzer: its
    success result holds an [issues] list and no [issues_found] key. *)
Lemma structure_result_has_no_issues_found :
  Structure.analyze_code_structure Samples.parse Samples.cleandoc "pass"
    = Structure.Success (Structure.Analysis [] [] [] 1 []) /\
  Structure.status
    (Structure.analyze_code_structure Samples.parse Samples.cleandoc "pass")
    = success /\
  ~ In "issues_found"
       (Structure.keys
          (Structure.analyze_code_structure Samples.parse Samples.cleandoc
             "pass")).
Proof.
  split; [reflexivity|]. split; [reflexivity|].
  cbn. intros H. repeat (destruct H as [H | H]; [discriminate|]).
  exact H.
Qed.

(** C4, amended: in a success result of the security scanner, of the
    performance scanner and of the documentation auditor,
    [issues_found] is the length of the list of findings; the result
    of the structure analyzer has no [issues_found] key. *)
Theorem issues_found_is_length
    (parse : string -> exception + syntax_tree)
    (cleandoc : string -> string) (code : string) :
  Security.issues_found (Security.check_security_issues code)
    = length (Security.security_issues (Security.check_security_issues code))
  /\
  Performance.issues_found (Performance.check_performance_issues code)
    = length (Performance.performance_issues
                (Performance.check_performance_issues code))
  /\
  (forall n doc_issues flag,
     Documentation.check_documentation parse cleandoc code
       = Documentation.Success n doc_issues flag ->
     n = length doc_issues)
  /\
  ~ In "issues_found"
       (Structure.keys
          (Structure.analyze_code_structure parse cleandoc code)).
Proof.
  split; [reflexivity|]. split.
  - unfold Performance.check_performance_issues.
    now destruct (Performance.scan_lines _ _ _).
  - split.
    + unfold Documentation.check_documentation.
      destruct (parse code) as [[m | m] | tree]; try discriminate.
      intros n l w H. now injection H as <- <- _.
    + destruct (Structure.analyze_code_structure parse cleandoc code);
        cbn; intros H;
        repeat (destruct H as [H | H]; [discriminate|]); exact H.
Qed.

Lemma issues_found_is_length_witness :
  Documentation.check_documentation Samples.parse Samples.cleandoc
    Samples.stop_source
  = Documentation.Success 1
      [Documentation.DocIssue 1 "stop" Documentation.Function
         Documentation.undocumented_return LOW] false /\
  1 = length [Documentation.DocIssue 1 "stop" Documentation.Function
                Documentation.undocumented_return LOW].
Proof.
  split; [reflexivity|].
  apply (proj1 (proj2 (proj2 (issues_found_is_length Samples.parse
                                Samples.cleandoc Samples.stop_source)))
           1 _ false).
  reflexivity.
Defined.

End IssueCounts.

(* ================================================================= *)
(** * Further properties of the scanners *)

(** ** Lines and letter case *)

Section LineFacts.

Lemma split_lines_not_nil (s : string) : split_lines s <> [].
Proof.
  destruct s as [|c s]; simpl; [discriminate|].
  destruct (Ascii.eqb c newline); [discriminate|].
  destruct (split_lines s); discriminate.
Qed.

(** Text joined by a newline splits into the lines of both parts. *)
Lemma split_lines_join (a b : string) :
  split_lines (a ++ String newline b) = split_lines a ++ split_lines b.
Proof.
  induction a as [|c a IH].
  - cbn [append split_lines]. now rewrite Ascii.eqb_refl.
  - cbn [append split_lines]. rewrite IH.
    destruct (Ascii.eqb c newline); [reflexivity|].
    pose proof (split_lines_not_nil a) as Hne.
    destruct (split_lines a) as [|l ls]; [contradiction | reflexivity].
Qed.

Lemma length_split_lines (s : string) :
  length (split_lines s) = S (count_newlines s).
Proof.
  induction s as [|c s IH]; [reflexivity|].
  cbn [split_lines count_newlines].
  destruct (Ascii.eqb c newline); cbn [length Nat.add]; [now rewrite IH|].
  pose proof (split_lines_not_nil s) as Hne.
  destruct (split_lines s) as [|l ls]; [contradiction|exact IH].
Qed.

Lemma lower_char_idem (c : ascii) : lower_char (lower_char c) = lower_char c.
Proof. destruct c as [[] [] [] [] [] [] [] []]; reflexivity. Qed.

Lemma lower_char_newline (c : ascii) :
  Ascii.eqb (lower_char c) newline = Ascii.eqb c newline.
Proof. destruct c as [[] [] [] [] [] [] [] []]; reflexivity. Qed.

Lemma isspace_lower_char (c : ascii) : isspace (lower_char c) = isspace c.
Proof. destruct c as [[] [] [] [] [] [] [] []]; reflexivity. Qed.

Lemma lower_idem (s : string) : lower (lower s) = lower s.
Proof.
  induction s as [|c s IH]; simpl; [reflexivity|].
  now rewrite lower_char_idem, IH.
Qed.

Lemma split_lines_lower (s : string) :
  split_lines (lower s) = map lower (split_lines s).
Proof.
  induction s as [|c s IH]; [reflexivity|].
  cbn [lower split_lines]. rewrite lower_char_newline, IH.
  destruct (Ascii.eqb c newline); [reflexivity|].
  pose proof (split_lines_not_nil s) as Hne.
  destruct (split_lines s) as [|l ls]; [contradiction | reflexivity].
Qed.

Lemma lstrip_lower (s : string) : lstrip (lower s) = lower (lstrip s).
Proof.
  induction s as [|c s IH]; [reflexivity|].
  cbn [lower lstrip]. rewrite isspace_lower_char.
  destruct (isspace c); [exact IH | reflexivity].
Qed.

Lemma rstrip_lower (s : string) : rstrip (lower s) = lower (rstrip s).
Proof.
  induction s as [|c s IH]; [reflexivity|].
  cbn [lower rstrip]. rewrite IH, isspace_lower_char.
  destruct (rstrip s); cbn [lower]; [|reflexivity].
  destruct (isspace c); reflexivity.
Qed.

Lemma strip_lower (s : string) : strip (lower s) = lower (strip s).
Proof. unfold strip. now rewrite lstrip_lower, rstrip_lower. Qed.

End LineFacts.

(** ** Security scanner, further *)

Section SecurityMore.

Import Security.

Lemma sec_scan_lines_app (l1 l2 : list string) : forall i,
  scan_lines i (l1 ++ l2) [] =
  scan_lines i l1 [] ++ scan_lines (length l1 + i) l2 [].
Proof.
  induction l1 as [|ln l1 IH]; intros i; [reflexivity|].
  cbn [app length]. rewrite !sec_scan_lines_cons, IH, <- app_assoc.
  now rewrite Nat.add_succ_r.
Qed.

Lemma sec_try_pattern_shift n i ln ll e :
  try_pattern (n + i) ln ll [] e = map (sec_shift n) (try_pattern i ln ll [] e).
Proof.
  unfold try_pattern. destruct e as [p m].
  destruct (contains p ll); reflexivity.
Qed.

Lemma sec_scan_line_shift n i ln :
  scan_line (n + i) ln [] = map (sec_shift n) (scan_line i ln []).
Proof.
  rewrite !sec_scan_line_flat_map. cbn [app].
  induction dangerous_patterns as [|e t IH]; [reflexivity|].
  cbn [flat_map]. now rewrite map_app, IH, sec_try_pattern_shift.
Qed.

Lemma sec_scan_lines_shift n (lines : list string) : forall i,
  scan_lines (n + i) lines [] = map (sec_shift n) (scan_lines i lines []).
Proof.
  induction lines as [|ln lines IH]; intros i; [reflexivity|].
  rewrite !sec_scan_lines_cons, map_app, sec_scan_line_shift.
  now rewrite <- IH, Nat.add_succ_r.
Qed.

Lemma sec_try_pattern_lower i ln e :
  try_pattern i (lower ln) (lower (lower ln)) [] e =
  map lower_snippet (try_pattern i ln (lower ln) [] e).
Proof.
  unfold try_pattern. destruct e as [p m]. rewrite lower_idem.
  destruct (contains p (lower ln)); [|reflexivity].
  cbn [map]. unfold lower_snippet. cbn. now rewrite strip_lower.
Qed.

Lemma sec_scan_line_lower i ln :
  scan_line i (lower ln) [] = map lower_snippet (scan_line i ln []).
Proof.
  rewrite !sec_scan_line_flat_map. cbn [app].
  induction dangerous_patterns as [|e t IH]; [reflexivity|].
  cbn [flat_map]. now rewrite map_app, IH, sec_try_pattern_lower.
Qed.

Lemma sec_scan_lines_lower (lines : list string) : forall i,
  scan_lines i (map lower lines) [] =
  map lower_snippet (scan_lines i lines []).
Proof.
  induction lines as [|ln lines IH]; intros i; [reflexivity|].
  cbn [map]. rewrite !sec_scan_lines_cons, map_app, sec_scan_line_lower.
  now rewrite IH.
Qed.

Lemma sec_scan_lines_bounds (lines : list string) i f :
  In f (scan_lines i lines []) -> i <= line f < i + length lines.
Proof.
  intros H. apply sec_in_scan_lines in H as (k & ln & Hk & H).
  apply sec_scan_line_line in H. rewrite H.
  assert (k < length lines) by (apply nth_error_Some; congruence). lia.
Qed.

Lemma sorted_app (l1 l2 : list nat) :
  StronglySorted le l1 -> StronglySorted le l2 ->
  (forall x y, In x l1 -> In y l2 -> x <= y) ->
  StronglySorted le (l1 ++ l2).
Proof.
  induction l1 as [|a l1 IH]; intros H1 H2 H; [exact H2|].
  cbn [app]. inversion H1 as [|? ? Hs Hf]; subst. constructor.
  - apply IH; [exact Hs | exact H2 |].
    intros x y Hx Hy. apply H; [now right | exact Hy].
  - apply Forall_app. split; [exact Hf|].
    apply Forall_forall. intros y Hy. apply H; [now left | exact Hy].
Qed.

Lemma sorted_constant (i : nat) (l : list nat) :
  (forall x, In x l -> x = i) -> StronglySorted le l.
Proof.
  induction l as [|a l IH]; intros H; constructor.
  - apply IH. intros x Hx. apply H. now right.
  - apply Forall_forall. intros x Hx.
    rewrite (H a (or_introl eq_refl)), (H x (or_intror Hx)). constructor.
Qed.

Lemma sec_scan_lines_sorted (lines : list string) : forall i,
  StronglySorted le (map line (scan_lines i lines [])).
Proof.
  induction lines as [|ln lines IH]; intros i; [constructor|].
  rewrite sec_scan_lines_cons, map_app. apply sorted_app.
  - apply (sorted_constant i). intros x Hx.
    apply in_map_iff in Hx as (f & <- & Hf). now apply sec_scan_line_line in Hf.
  - apply IH.
  - intros x y Hx Hy.
    apply in_map_iff in Hx as (f & <- & Hf). apply sec_scan_line_line in Hf.
    apply in_map_iff in Hy as (g & <- & Hg). apply sec_scan_lines_bounds in Hg.
    lia.
Qed.

Lemma length_zero_nil {A : Type} (l : list A) : (length l =? 0) = true <-> l = [].
Proof.
  destruct l; simpl; split; intros H; try reflexivity; discriminate.
Qed.

Lemma sec_line_at_most_eight i ln : length (scan_line i ln []) <= 8.
Proof.
  rewrite sec_scan_line_flat_map. unfold dangerous_patterns, try_pattern.
  cbn [flat_map app].
  rewrite (upper_pattern_never_in_lower "shell=True" ln eq_refl).
  rewrite (upper_pattern_never_in_lower "SECRET" ln eq_refl).
  repeat match goal with
         | |- context [if contains ?p ?s then _ else _] =>
             destruct (contains p s)
         end; cbn; lia.
Qed.

Lemma sec_lines_at_most_eight (lines : list string) : forall i,
  length (scan_lines i lines []) <= 8 * length lines.
Proof.
  induction lines as [|ln lines IH]; intros i; [cbn; lia|].
  rewrite sec_scan_lines_cons, length_app. cbn [length].
  pose proof (sec_line_at_most_eight i ln). pose proof (IH (S i)). lia.
Qed.

End SecurityMore.

Section SecurityExtras.

Import Security.

(** X1: what the security scanner reports, and nothing else: an issue
    is in the result exactly when its line number is that of a line of
    the input whose lower-cased text holds its pattern, with the
    table's message for the pattern, the severity of the pattern and
    the stripped line as snippet. *)
Theorem security_issue_iff (code : string) (f : issue) :
  In f (security_issues (check_security_issues code)) <->
  exists k ln p m,
    nth_error (split_lines code) k = Some ln /\
    In (p, m) dangerous_patterns /\
    contains p (lower ln) = true /\
    f = Issue (S k) p m (severity_of p) (strip ln).
Proof.
  rewrite in_check_security_issues. split.
  - intros (k & ln & Hk & H).
    apply sec_in_scan_line in H as (p & m & Hin & Hc & ->).
    now exists k, ln, p, m.
  - intros (k & ln & p & m & Hk & Hin & Hc & ->).
    exists k, ln. split; [exact Hk|].
    apply sec_in_scan_line. now exists p, m.
Qed.

Lemma security_issue_iff_witness :
  In Samples.eval_issue
     (security_issues (check_security_issues Samples.eval_line)).
Proof.
  apply (proj2 (security_issue_iff Samples.eval_line Samples.eval_issue)).
  exists 0, Samples.eval_line, "eval(",
    "Dangerous use of eval() - can execute arbitrary code".
  repeat split. now left.
Defined.

(** X2: [safe] is true exactly when no line of the input, lower-cased,
    holds any pattern of the table. *)
Theorem security_safe_iff (code : string) :
  safe (check_security_issues code) = true <->
  forall ln p m,
    In ln (split_lines code) -> In (p, m) dangerous_patterns ->
    contains p (lower ln) = false.
Proof.
  unfold check_security_issues. cbn [safe]. rewrite length_zero_nil. split.
  - intros Hnil ln p m Hln Hp.
    destruct (contains p (lower ln)) eqn:Hc; [exfalso | reflexivity].
    apply In_nth_error in Hln as [k Hk].
    assert (H : In (Issue (1 + k) p m (severity_of p) (strip ln))
                   (scan_lines 1 (split_lines code) [])).
    { apply sec_in_scan_lines. exists k, ln. split; [exact Hk|].
      apply sec_in_scan_line. now exists p, m. }
    rewrite Hnil in H. contradiction.
  - intros H. destruct (scan_lines 1 (split_lines code) []) as [|f l] eqn:E;
      [reflexivity | exfalso].
    assert (Hf : In f (scan_lines 1 (split_lines code) []))
      by (rewrite E; now left).
    apply sec_in_scan_lines in Hf as (k & ln & Hk & Hf).
    apply sec_in_scan_line in Hf as (p & m & Hp & Hc & _).
    rewrite (H ln p m (nth_error_In _ _ Hk) Hp) in Hc. discriminate.
Qed.

Lemma security_safe_iff_witness :
  contains "password" (lower Samples.password_line) = true /\
  safe (check_security_issues Samples.password_line) = false.
Proof.
  split; [reflexivity|].
  destruct (safe (check_security_issues Samples.password_line)) eqn:E;
    [|reflexivity].
  pose proof (proj1 (security_safe_iff Samples.password_line) E
                Samples.password_line "password"
                "Hardcoded password detected - use environment variables"
                (or_introl eq_refl)) as H.
  cbv in H. apply H. do 7 right. now left.
Defined.

(** X3: the issues come in the order of the lines: their line numbers
    never decrease along the list, and each lies between 1 and the
    number of lines of the input. *)
Theorem security_issues_in_line_order (code : string) :
  StronglySorted le
    (map line (security_issues (check_security_issues code))) /\
  Forall (fun f => 1 <= line f <= length (split_lines code))
         (security_issues (check_security_issues code)).
Proof.
  split; [apply sec_scan_lines_sorted|].
  apply Forall_forall. intros f Hf.
  apply sec_scan_lines_bounds in Hf. lia.
Qed.

(** X4: scanning two texts joined by a newline gives the issues of the
    first, then those of the second with line numbers moved down by
    the number of lines of the first. *)
Theorem security_scan_of_joined_text (a b : string) :
  security_issues (check_security_issues (a ++ String newline b)) =
  security_issues (check_security_issues a) ++
  map (sec_shift (length (split_lines a)))
      (security_issues (check_security_issues b)).
Proof.
  unfold check_security_issues. cbn [security_issues].
  rewrite split_lines_join, sec_scan_lines_app. f_equal.
  apply sec_scan_lines_shift.
Qed.

(** X5: letter case does not matter: the lower-cased input yields the
    same issues, line by line and pattern by pattern, with lower-cased
    snippets; so the count and [safe] are the same. *)
Theorem security_ignores_letter_case (code : string) :
  security_issues (check_security_issues (lower code)) =
  map lower_snippet (security_issues (check_security_issues code)) /\
  issues_found (check_security_issues (lower code)) =
  issues_found (check_security_issues code) /\
  safe (check_security_issues (lower code)) =
  safe (check_security_issues code).
Proof.
  unfold check_security_issues. cbn [security_issues issues_found safe].
  rewrite split_lines_lower, sec_scan_lines_lower, length_map.
  repeat split.
Qed.

(** X6: a line yields at most eight issues, so the count is at most
    eight times the number of lines. *)
Theorem security_at_most_eight_per_line (code : string) :
  issues_found (check_security_issues code)
  <= 8 * length (split_lines code).
Proof. apply sec_lines_at_most_eight. Qed.

(** X7: the table entry [shell=True] holds an upper-case letter and is
    looked for in the lower-cased line: no input yields an issue with
    that pattern. *)
Theorem security_shell_true_never_reported (code : string) :
  existsb (fun f => String.eqb (pattern f) "shell=True")
          (security_issues (check_security_issues code)) = false.
Proof.
  destruct (existsb _ _) eqn:E; [exfalso | reflexivity].
  apply existsb_exists in E as (f & Hf & Hp).
  apply String.eqb_eq in Hp.
  apply in_check_security_issues in Hf as (k & ln & _ & Hf).
  apply sec_in_scan_line in Hf as (p & m & _ & Hc & ->).
  simpl in Hp; subst p.
  now rewrite upper_pattern_never_in_lower in Hc.
Qed.

End SecurityExtras.

(** ** Performance scanner, further *)

Section PerformanceMore.

Import Performance.

Lemma rstrip_idem (s : string) : rstrip (rstrip s) = rstrip s.
Proof.
  induction s as [|c s IH]; [reflexivity|].
  cbn [rstrip]. destruct (rstrip s) as [|d kept] eqn:E.
  - destruct (isspace c) eqn:Hc; [reflexivity|].
    cbn [rstrip]. now rewrite Hc.
  - cbn [rstrip]. cbn [rstrip] in IH. now rewrite IH.
Qed.

(** Stripping a stripped line changes nothing. *)
Lemma strip_idem (s : string) : strip (strip s) = strip s.
Proof.
  assert (H : lstrip (strip s) = strip s).
  { destruct (strip_head s) as [-> | (c & rest & -> & Hc)]; [reflexivity|].
    cbn [lstrip]. now rewrite Hc. }
  unfold strip at 1. rewrite H. unfold strip. apply rstrip_idem.
Qed.

(** The issues of a line do not depend on the flag the line starts
    with: where the flag is read, the line is not blank, and then the
    flag was just recomputed from the line alone. *)
Lemma perf_try_pattern_flag i ln b e :
  try_pattern i (strip ln) (track_loop (strip ln) b) [] e =
  try_pattern i (strip ln) (is_loop_header (strip ln)) [] e.
Proof.
  unfold try_pattern. destruct e as [p m].
  destruct (contains p (strip ln)) eqn:Hc; [|reflexivity].
  destruct (String.eqb_spec p ".append(") as [-> | _]; [|reflexivity].
  rewrite track_loop_strip.
  rewrite (contains_truthy ".append(" _ eq_refl Hc).
  unfold is_loop_header. now rewrite orb_false_r.
Qed.

Lemma perf_scan_line_any_flag i ln b acc :
  snd (scan_line i ln (b, acc)) = acc ++ snd (scan_line i ln (false, [])).
Proof.
  rewrite !perf_scan_line_eq. cbn [snd app]. f_equal.
  induction patterns as [|e t IH]; [reflexivity|].
  cbn [flat_map]. now rewrite IH, !perf_try_pattern_flag.
Qed.

Lemma perf_scan_lines_any_flag (lines : list string) : forall i b acc,
  snd (scan_lines i lines (b, acc)) =
  acc ++ snd (scan_lines i lines (false, [])).
Proof.
  induction lines as [|ln lines IH]; intros i b acc.
  - cbn. now rewrite app_nil_r.
  - cbn [scan_lines].
    destruct (scan_line i ln (b, acc)) as [b1 acc1] eqn:E1.
    destruct (scan_line i ln (false, [])) as [b2 acc2] eqn:E2.
    rewrite (IH (S i) b1 acc1), (IH (S i) b2 acc2).
    pose proof (perf_scan_line_any_flag i ln b acc) as H.
    rewrite E1, E2 in H. cbn [snd] in H. rewrite H.
    now rewrite app_assoc.
Qed.

Lemma perf_scan_lines_cons i ln lines :
  snd (scan_lines i (ln :: lines) (false, [])) =
  snd (scan_line i ln (false, [])) ++
  snd (scan_lines (S i) lines (false, [])).
Proof.
  cbn [scan_lines].
  destruct (scan_line i ln (false, [])) as [b acc].
  apply perf_scan_lines_any_flag.
Qed.

Lemma perf_in_scan_lines (lines : list string) : forall i f,
  In f (snd (scan_lines i lines (false, []))) <->
  exists k ln, nth_error lines k = Some ln /\
               In f (snd (scan_line (i + k) ln (false, []))).
Proof.
  induction lines as [|ln lines IH]; intros i f.
  - cbn. split; [contradiction|]. intros (k & l & H & _). now destruct k.
  - rewrite perf_scan_lines_cons, in_app_iff, IH. split.
    + intros [H | (k & l & Hk & H)].
      * exists 0, ln. now rewrite Nat.add_0_r.
      * exists (S k), l. now rewrite Nat.add_succ_r.
    + intros (k & l & Hk & H). destruct k as [|k]; cbn in Hk.
      * injection Hk as <-. left. now rewrite Nat.add_0_r in H.
      * right. exists k, l. now rewrite Nat.add_succ_r in H.
Qed.

(** The issues of one line. *)
Lemma perf_in_scan_line i ln f :
  In f (snd (scan_line i ln (false, []))) <->
  exists p m,
    In (p, m) patterns /\ contains p (strip ln) = true /\
    ((p = ".append(" /\ is_loop_header (strip ln) = true /\
      f = Issue i m LOW (strip ln)) \/
     (p <> ".append(" /\ f = Issue i m MEDIUM (strip ln))).
Proof.
  rewrite perf_scan_line_eq. cbn [snd app]. rewrite in_flat_map. split.
  - intros ([p m] & Hin & Hf). rewrite perf_try_pattern_flag in Hf.
    unfold try_pattern in Hf.
    destruct (contains p (strip ln)) eqn:Hc; [|contradiction].
    exists p, m. split; [exact Hin|]. split; [exact Hc|].
    destruct (is_loop_header (strip ln)) eqn:Hh;
      destruct (String.eqb_spec p ".append(") as [-> | Hne]; cbn in Hf;
      try contradiction; destruct Hf as [<- | []].
    + left. now repeat split.
    + right. now split.
    + right. now split.
  - intros (p & m & Hin & Hc & H). exists (p, m). split; [exact Hin|].
    rewrite perf_try_pattern_flag. unfold try_pattern. rewrite Hc.
    destruct H as [(-> & Hh & ->) | (Hne & ->)].
    + rewrite Hh. cbn. now left.
    + destruct (String.eqb_spec p ".append(") as [-> | _];
        [contradiction|]. cbn. now left.
Qed.

Lemma perf_issues_eq code :
  performance_issues (check_performance_issues code) =
  snd (scan_lines 1 (split_lines code) (false, [])).
Proof.
  unfold check_performance_issues.
  now destruct (scan_lines 1 (split_lines code) (false, [])).
Qed.

Lemma perf_scan_line_line i ln f :
  In f (snd (scan_line i ln (false, []))) -> line f = i.
Proof.
  intros H. apply perf_in_scan_line in H
    as (p & m & _ & _ & [(_ & _ & ->) | (_ & ->)]); reflexivity.
Qed.

Lemma perf_scan_lines_bounds (lines : list string) i f :
  In f (snd (scan_lines i lines (false, []))) ->
  i <= line f < i + length lines.
Proof.
  intros H. apply perf_in_scan_lines in H as (k & ln & Hk & H).
  apply perf_scan_line_line in H. rewrite H.
  assert (k < length lines) by (apply nth_error_Some; congruence). lia.
Qed.

Lemma perf_scan_lines_sorted (lines : list string) : forall i,
  StronglySorted le (map line (snd (scan_lines i lines (false, [])))).
Proof.
  induction lines as [|ln lines IH]; intros i; [constructor|].
  rewrite perf_scan_lines_cons, map_app. apply sorted_app.
  - apply (sorted_constant i). intros x Hx.
    apply in_map_iff in Hx as (f & <- & Hf).
    now apply perf_scan_line_line in Hf.
  - apply IH.
  - intros x y Hx Hy.
    apply in_map_iff in Hx as (f & <- & Hf). apply perf_scan_line_line in Hf.
    apply in_map_iff in Hy as (g & <- & Hg).
    apply perf_scan_lines_bounds in Hg. lia.
Qed.

Lemma perf_scan_lines_app (l1 l2 : list string) : forall i,
  snd (scan_lines i (l1 ++ l2) (false, [])) =
  snd (scan_lines i l1 (false, [])) ++
  snd (scan_lines (length l1 + i) l2 (false, [])).
Proof.
  induction l1 as [|ln l1 IH]; intros i; [reflexivity|].
  cbn [app length]. rewrite !perf_scan_lines_cons, IH, <- app_assoc.
  now rewrite Nat.add_succ_r.
Qed.

Lemma perf_scan_line_shift n i ln :
  snd (scan_line (n + i) ln (false, [])) =
  map (perf_shift n) (snd (scan_line i ln (false, []))).
Proof.
  rewrite !perf_scan_line_eq. cbn [snd app].
  induction patterns as [|e t IH]; [reflexivity|].
  cbn [flat_map]. rewrite map_app, IH. f_equal.
  unfold try_pattern. destruct e as [p m].
  destruct (contains p (strip ln)); [|reflexivity].
  destruct (_ && _); [reflexivity|]. now destruct (negb _).
Qed.

Lemma perf_scan_lines_shift n (lines : list string) : forall i,
  snd (scan_lines (n + i) lines (false, [])) =
  map (perf_shift n) (snd (scan_lines i lines (false, []))).
Proof.
  induction lines as [|ln lines IH]; intros i; [reflexivity|].
  rewrite !perf_scan_lines_cons, map_app, perf_scan_line_shift.
  now rewrite <- IH, Nat.add_succ_r.
Qed.

Lemma perf_scan_line_strip i ln st :
  scan_line i (strip ln) st = scan_line i ln st.
Proof. unfold scan_line. destruct st. now rewrite strip_idem. Qed.

Lemma perf_scan_lines_strip (lines : list string) : forall i st,
  scan_lines i (map strip lines) st = scan_lines i lines st.
Proof.
  induction lines as [|ln lines IH]; intros i st; [reflexivity|].
  cbn [map scan_lines]. now rewrite perf_scan_line_strip, IH.
Qed.

End PerformanceMore.

Section PerformanceExtras.

Import Performance.

(** X8: what the performance scanner reports, and nothing else.  An
    issue is in the result exactly when its line number is that of a
    line whose stripped text holds a table pattern, and either the
    pattern is [.append(], the stripped line itself starts with [for ]
    or [while ], and the severity is LOW, or the pattern is another
    one and the severity is MEDIUM. *)
Theorem performance_issue_iff (code : string) (f : issue) :
  In f (performance_issues (check_performance_issues code)) <->
  exists k ln p m,
    nth_error (split_lines code) k = Some ln /\
    In (p, m) patterns /\ contains p (strip ln) = true /\
    ((p = ".append(" /\ is_loop_header (strip ln) = true /\
      f = Issue (S k) m LOW (strip ln)) \/
     (p <> ".append(" /\ f = Issue (S k) m MEDIUM (strip ln))).
Proof.
  rewrite perf_issues_eq, perf_in_scan_lines. split.
  - intros (k & ln & Hk & H).
    apply perf_in_scan_line in H as (p & m & H).
    now exists k, ln, p, m.
  - intros (k & ln & p & m & Hk & H).
    exists k, ln. split; [exact Hk|].
    apply perf_in_scan_line. now exists p, m.
Qed.

Lemma performance_issue_iff_witness :
  In Samples.append_issue
     (performance_issues
        (check_performance_issues Samples.loop_on_one_line)).
Proof.
  apply (proj2 (performance_issue_iff Samples.loop_on_one_line
                  Samples.append_issue)).
  exists 0, Samples.loop_on_one_line, ".append(",
    "Consider list comprehension if building list in loop".
  split; [reflexivity|]. split; [right; now left|].
  split; [reflexivity|]. left. now repeat split.
Defined.

(** X9: the loop flag carries nothing from one line to the issues of a
    later one: scanning two texts joined by a newline gives the issues
    of the first, then those of the second with line numbers moved
    down by the number of lines of the first. *)
Theorem performance_scan_of_joined_text (a b : string) :
  performance_issues (check_performance_issues (a ++ String newline b)) =
  performance_issues (check_performance_issues a) ++
  map (perf_shift (length (split_lines a)))
      (performance_issues (check_performance_issues b)).
Proof.
  rewrite !perf_issues_eq, split_lines_join, perf_scan_lines_app.
  f_equal. apply perf_scan_lines_shift.
Qed.

(** X10: indentation plays no part: two inputs whose lines are equal
    once stripped get the same result. *)
Theorem performance_ignores_indentation (code1 code2 : string) :
  map strip (split_lines code1) = map strip (split_lines code2) ->
  check_performance_issues code1 = check_performance_issues code2.
Proof.
  intros H. unfold check_performance_issues.
  rewrite <- (perf_scan_lines_strip (split_lines code1)).
  rewrite <- (perf_scan_lines_strip (split_lines code2)).
  now rewrite H.
Qed.

Lemma performance_ignores_indentation_witness :
  check_performance_issues Samples.loop_with_append =
  check_performance_issues Samples.loop_with_append_flat.
Proof.
  apply (performance_ignores_indentation Samples.loop_with_append
           Samples.loop_with_append_flat).
  reflexivity.
Defined.

(** X11: [optimized] is true exactly when the only table pattern any
    stripped line holds is [.append(], on lines that do not start with
    [for ] or [while ]. *)
Theorem performance_optimized_iff (code : string) :
  optimized (check_performance_issues code) = true <->
  forall ln p m,
    In ln (split_lines code) -> In (p, m) patterns ->
    contains p (strip ln) = true ->
    p = ".append(" /\ is_loop_header (strip ln) = false.
Proof.
  assert (E : optimized (check_performance_issues code) =
              (length (performance_issues (check_performance_issues code))
               =? 0)).
  { unfold check_performance_issues.
    now destruct (scan_lines 1 (split_lines code) (false, [])). }
  rewrite E, length_zero_nil, perf_issues_eq. split.
  - intros Hnil ln p m Hln Hp Hc.
    apply In_nth_error in Hln as [k Hk].
    assert (Hno : forall f,
               ~ In f (snd (scan_line (1 + k) ln (false, [])))).
    { intros f Hf.
      assert (H : In f (snd (scan_lines 1 (split_lines code) (false, []))))
        by (apply perf_in_scan_lines; now exists k, ln).
      rewrite Hnil in H. contradiction. }
    destruct (String.eqb_spec p ".append(") as [-> | Hne].
    + split; [reflexivity|].
      destruct (is_loop_header (strip ln)) eqn:Hh; [exfalso | reflexivity].
      apply (Hno (Issue (1 + k) m LOW (strip ln))).
      apply perf_in_scan_line. exists ".append(", m.
      split; [exact Hp|]. split; [exact Hc|]. left. now repeat split.
    + exfalso. apply (Hno (Issue (1 + k) m MEDIUM (strip ln))).
      apply perf_in_scan_line. exists p, m.
      split; [exact Hp|]. split; [exact Hc|]. right. now split.
  - intros H.
    destruct (snd (scan_lines 1 (split_lines code) (false, [])))
      as [|f l] eqn:E1; [reflexivity | exfalso].
    assert (Hf : In f (snd (scan_lines 1 (split_lines code) (false, []))))
      by (rewrite E1; now left).
    apply perf_in_scan_lines in Hf as (k & ln & Hk & Hf).
    apply perf_in_scan_line in Hf as (p & m & Hp & Hc & Hcase).
    destruct (H ln p m (nth_error_In _ _ Hk) Hp Hc) as [-> Hh].
    destruct Hcase as [(_ & Hh' & _) | (Hne & _)]; congruence.
Qed.

Lemma performance_optimized_iff_witness :
  optimized (check_performance_issues Samples.loop_with_append) = true /\
  is_loop_header (strip "    out.append(i)") = false.
Proof.
  split; [reflexivity|].
  apply (proj1 (performance_optimized_iff Samples.loop_with_append)
           eq_refl "    out.append(i)" ".append("
           "Consider list comprehension if building list in loop").
  - right. now left.
  - right. now left.
  - reflexivity.
Defined.

(** X12: the issues come in the order of the lines: their line numbers
    never decrease along the list, and each lies between 1 and the
    number of lines of the input. *)
Theorem performance_issues_in_line_order (code : string) :
  StronglySorted le
    (map line (performance_issues (check_performance_issues code))) /\
  Forall (fun f => 1 <= line f <= length (split_lines code))
         (performance_issues (check_performance_issues code)).
Proof.
  rewrite perf_issues_eq. split; [apply perf_scan_lines_sorted|].
  apply Forall_forall. intros f Hf.
  apply perf_scan_lines_bounds in Hf. lia.
Qed.

(** X13: the severity of a performance issue is never HIGH, and it is
    LOW exactly for the message of the [.append(] entry. *)
Theorem performance_severity_by_message (code : string) :
  Forall (fun f =>
            match severity f with
            | LOW =>
                message f =
                "Consider list comprehension if building list in loop"
            | MEDIUM =>
                In (message f)
                   ["Use enumerate() instead of range(len())";
                    "Global variables can hurt performance and readability";
                    "String concatenation in loop - use join() or f-strings";
                    "Empty except blocks hide errors (if found)"]
            | HIGH => False
            end)
         (performance_issues (check_performance_issues code)).
Proof.
  apply Forall_forall. intros f Hf.
  rewrite perf_issues_eq in Hf.
  apply perf_in_scan_lines in Hf as (k & ln & _ & Hf).
  apply perf_in_scan_line in Hf as (p & m & Hp & _ & Hcase).
  destruct Hcase as [(-> & _ & ->) | (Hne & ->)]; cbn [severity message].
  - cbn in Hp.
    repeat (destruct Hp as [Hp | Hp]; [congruence|]).
    contradiction.
  - cbn in Hp.
    repeat (destruct Hp as [Hp | Hp];
            [injection Hp as <- <-;
             first [now contradiction Hne | simpl; auto 10] |]).
    contradiction.
Qed.

End PerformanceExtras.

(** ** Structure analyzer, further *)

Section FoldFacts.

Context {S N A : Type}.
Variable step : S -> N -> S.
Variable field : S -> list A.
Variable s0 : S.
Hypothesis step_field :
  forall s n, field (step s n) = field s ++ field (step s0 n).

(** A list that every round only extends holds, in the end, what each
    node adds to it. *)
Lemma fold_left_field (l : list N) : forall s,
  field (fold_left step l s) =
  field s ++ flat_map (fun n => field (step s0 n)) l.
Proof.
  induction l as [|n l IH]; intros s; cbn [fold_left flat_map].
  - now rewrite app_nil_r.
  - now rewrite IH, step_field, app_assoc.
Qed.

End FoldFacts.

Lemma perm_filter {A : Type} (keep : A -> bool) (l l' : list A) :
  Permutation l l' -> Permutation (filter keep l) (filter keep l').
Proof.
  induction 1 as [| x l l' _ IH | x y l | l l' l'' _ IH1 _ IH2]; cbn.
  - constructor.
  - destruct (keep x); [now constructor | exact IH].
  - destruct (keep x), (keep y); try apply Permutation_refl.
    apply perm_swap.
  - now transitivity (filter keep l').
Qed.

Lemma length_flat_map_le {A B : Type} (g : A -> list B) (bound : A -> nat)
    (l : list A) :
  (forall x, length (g x) <= bound x) ->
  length (flat_map g l) <= list_sum (map bound l).
Proof.
  intros H. induction l as [|x l IH]; simpl; [lia|].
  rewrite length_app. pose proof (H x). lia.
Qed.

Section StructureMore.

Import Structure.

Variable cleandoc : string -> string.

Lemma add_imports_eq (names : list string) : forall a,
  fold_left (fun a alias_name => add_import a (Some alias_name)) names a =
  Analysis (functions a) (classes a) (imports a ++ map Some names)
           (lines_of_code a) (issues a).
Proof.
  induction names as [|x names IH]; intros a; cbn [fold_left map].
  - rewrite app_nil_r. now destruct a.
  - rewrite IH. cbn. now rewrite <- app_assoc.
Qed.

Lemma visit_functions a node :
  functions (visit cleandoc a node) =
  functions a ++ functions (visit cleandoc blank node).
Proof.
  destruct node; cbn [visit]; rewrite ?add_imports_eq;
    try (cbn; now rewrite app_nil_r).
  - destruct (negb _), (5 <? _); reflexivity.
  - destruct (negb _); cbn; now rewrite app_nil_r.
Qed.

Lemma visit_classes a node :
  classes (visit cleandoc a node) =
  classes a ++ classes (visit cleandoc blank node).
Proof.
  destruct node; cbn [visit]; rewrite ?add_imports_eq;
    try (cbn; now rewrite app_nil_r).
  - destruct (negb _), (5 <? _); cbn; now rewrite app_nil_r.
  - destruct (negb _); reflexivity.
Qed.

Lemma visit_issues a node :
  issues (visit cleandoc a node) =
  issues a ++ issues (visit cleandoc blank node).
Proof.
  destruct node; cbn [visit]; rewrite ?add_imports_eq;
    try (cbn; now rewrite app_nil_r).
  - destruct (negb _), (5 <? _); cbn;
      rewrite <- ?app_assoc, ?app_nil_r; reflexivity.
  - destruct (negb _); cbn; rewrite ?app_nil_r; reflexivity.
Qed.

Lemma visit_imports_eq a node :
  imports (visit cleandoc a node) =
  imports a ++ imports (visit cleandoc blank node).
Proof.
  destruct node; cbn [visit]; rewrite ?add_imports_eq;
    try (cbn; now rewrite app_nil_r); try (cbn; reflexivity).
  - destruct (negb _), (5 <? _); cbn; now rewrite app_nil_r.
  - destruct (negb _); cbn; now rewrite app_nil_r.
Qed.

Lemma visit_lines_of_code a node :
  lines_of_code (visit cleandoc a node) = lines_of_code a.
Proof.
  destruct node; cbn [visit]; rewrite ?add_imports_eq; try reflexivity.
  - destruct (negb _), (5 <? _); reflexivity.
  - destruct (negb _); reflexivity.
Qed.

Lemma fold_visit_lines_of_code (l : list stmt) : forall a,
  lines_of_code (fold_left (visit cleandoc) l a) = lines_of_code a.
Proof.
  induction l as [|n l IH]; intros a; cbn [fold_left]; [reflexivity|].
  now rewrite IH, visit_lines_of_code.
Qed.

Lemma visit_issues_accounted a node :
  issues_accounted a -> issues_accounted (visit cleandoc a node).
Proof.
  unfold issues_accounted. intros H.
  destruct node; cbn [visit]; rewrite ?add_imports_eq; try exact H.
  - cbn [FuncInfo.has_docstring FuncInfo.args].
    destruct (match get_docstring cleandoc _ with Some _ => true | None => false end) eqn:Hd,
      (5 <? length args) eqn:Ha; cbn [negb];
      cbn [add_function add_issue functions classes issues];
      rewrite ?filter_app, ?length_app; cbn [filter];
      cbn [FuncInfo.has_docstring FuncInfo.args negb];
      rewrite ?Ha; cbn [length]; lia.
  - cbn [ClassInfo.has_docstring].
    destruct (match get_docstring cleandoc _ with Some _ => true | None => false end) eqn:Hd;
      cbn [negb]; cbn [add_class add_issue functions classes issues];
      rewrite ?filter_app, ?length_app; cbn [filter];
      cbn [ClassInfo.has_docstring negb]; cbn [length]; lia.
Qed.

Lemma fold_visit_issues_accounted (l : list stmt) : forall a,
  issues_accounted a -> issues_accounted (fold_left (visit cleandoc) l a).
Proof.
  induction l as [|n l IH]; intros a H; cbn [fold_left]; [exact H|].
  apply IH. now apply visit_issues_accounted.
Qed.

End StructureMore.

Section StructureCounts.

Import Structure.

Variable cleandoc : string -> string.

Lemma walk_module_perm (tree : syntax_tree) :
  Permutation (walk_module tree) (nodes_of tree).
Proof.
  destruct tree as [body]. apply walk_queue_complete. apply le_n.
Qed.

Lemma blank_functions_length (l : list stmt) :
  length (flat_map (fun n => functions (visit cleandoc blank n)) l) =
  length (filter isinstance_FunctionDef l).
Proof.
  induction l as [|n l IH]; [reflexivity|].
  cbn [flat_map filter]. rewrite length_app, IH.
  destruct n; cbn [visit isinstance_FunctionDef];
    rewrite ?add_imports_eq; try reflexivity.
  - destruct (negb _), (5 <? _); reflexivity.
  - destruct (negb _); reflexivity.
Qed.

Lemma blank_classes_length (l : list stmt) :
  length (flat_map (fun n => classes (visit cleandoc blank n)) l) =
  length (filter isinstance_ClassDef l).
Proof.
  induction l as [|n l IH]; [reflexivity|].
  cbn [flat_map filter]. rewrite length_app, IH.
  destruct n; cbn [visit isinstance_ClassDef];
    rewrite ?add_imports_eq; try reflexivity.
  - destruct (negb _), (5 <? _); reflexivity.
  - destruct (negb _); reflexivity.
Qed.

Lemma blank_function_record name args body lineno :
  functions (visit cleandoc blank (FunctionDef name args body lineno)) =
  [ FuncInfo.Make name (length args) lineno
      match get_docstring cleandoc (FunctionDef name args body lineno) with
      | Some _ => true | None => false end ].
Proof. cbn [visit]. destruct (negb _), (5 <? _); reflexivity. Qed.

Lemma blank_class_record name body lineno :
  classes (visit cleandoc blank (ClassDef name body lineno)) =
  [ ClassInfo.Make name lineno
      (length (filter isinstance_FunctionDef body))
      match get_docstring cleandoc (ClassDef name body lineno) with
      | Some _ => true | None => false end ].
Proof. cbn [visit]. destruct (negb _); reflexivity. Qed.

Lemma blank_imports_iff node m :
  In m (imports (visit cleandoc blank node)) <->
  (exists names x, node = Import names /\ In x names /\ m = Some x) \/
  (exists names level, node = ImportFrom m names level).
Proof.
  destruct node; cbn [visit]; rewrite ?add_imports_eq;
    try (cbn; split; [contradiction |
         intros [(? & ? & ? & _) | (? & ? & ?)]; discriminate]).
  - split.
    + destruct (negb _), (5 <? _); contradiction.
    + intros [(? & ? & ? & _) | (? & ? & ?)]; discriminate.
  - split.
    + destruct (negb _); contradiction.
    + intros [(? & ? & ? & _) | (? & ? & ?)]; discriminate.
  - cbn [imports blank app]. rewrite in_map_iff. split.
    + intros (x & <- & Hx). left. now exists names, x.
    + intros [(ns & x & E & Hx & ->) | (? & ? & ?)]; [|discriminate].
      injection E as <-. now exists x.
  - cbn. split.
    + intros [<- | []]. right. now exists names, level.
    + intros [(? & ? & ? & _) | (ns & lv & E)]; [discriminate|].
      injection E as <- _ _. now left.
Qed.

Lemma analyze_success parse code tree :
  parse code = inr tree ->
  analyze_code_structure parse cleandoc code =
  Success (fold_left (visit cleandoc) (walk_module tree)
             (Analysis [] [] [] (length (split_lines code)) [])).
Proof. intros H. unfold analyze_code_structure. now rewrite H. Qed.

End StructureCounts.

Section StructureExtras.

(** X14: in a success result of the structure analyzer the issues are
    accounted for by the records: their number is the number of
    function records without a docstring, plus the number of function
    records with more than five parameters, plus the number of class
    records without a docstring. *)
Theorem structure_issues_accounted
    (parse : string -> exception + syntax_tree)
    (cleandoc : string -> string) (code : string)
    (a : Structure.analysis_t) :
  Structure.analyze_code_structure parse cleandoc code = Structure.Success a ->
  issues_accounted a.
Proof.
  unfold Structure.analyze_code_structure.
  destruct (parse code) as [[m | m] | tree]; try discriminate.
  intros H. injection H as <-.
  apply fold_visit_issues_accounted. reflexivity.
Qed.

Lemma structure_issues_accounted_witness :
  exists a,
    Structure.analyze_code_structure Samples.parse_shapes Samples.cleandoc
      Samples.shapes_source = Structure.Success a /\
    length (Structure.issues a) = 2 /\ issues_accounted a.
Proof.
  eexists. split; [reflexivity|]. split; [reflexivity|].
  apply (structure_issues_accounted Samples.parse_shapes Samples.cleandoc
           Samples.shapes_source).
  reflexivity.
Defined.

(** X15: every plain function definition of the tree, at any depth, is
    recorded once: there are as many function records as [FunctionDef]
    nodes, and each node has its record, with its name, the length of
    its [node.args.args] (positional-only and keyword-only parameters,
    [*args] and [**kwargs] are not counted), its line and whether it
    has a docstring. *)
Theorem structure_functions_recorded
    (parse : string -> exception + syntax_tree)
    (cleandoc : string -> string) (code : string) (tree : syntax_tree)
    (a : Structure.analysis_t) :
  parse code = inr tree ->
  Structure.analyze_code_structure parse cleandoc code = Structure.Success a ->
  length (Structure.functions a) =
  length (filter isinstance_FunctionDef (nodes_of tree)) /\
  forall name args body lineno,
    In (FunctionDef name args body lineno) (nodes_of tree) ->
    In (Structure.FuncInfo.Make name (length args) lineno
          match get_docstring cleandoc (FunctionDef name args body lineno)
          with Some _ => true | None => false end)
       (Structure.functions a).
Proof.
  intros Hparse H. rewrite (analyze_success cleandoc _ _ _ Hparse) in H.
  injection H as <-.
  rewrite (fold_left_field (Structure.visit cleandoc) Structure.functions
             blank (visit_functions cleandoc)).
  cbn [Structure.functions app]. split.
  - rewrite blank_functions_length.
    apply Permutation_length, perm_filter, walk_module_perm.
  - intros name args body lineno Hn.
    apply in_flat_map. exists (FunctionDef name args body lineno).
    split; [now apply in_walk_module|].
    rewrite blank_function_record. now left.
Qed.

Lemma structure_functions_recorded_witness :
  exists a,
    Structure.analyze_code_structure Samples.parse_shapes Samples.cleandoc
      Samples.shapes_source = Structure.Success a /\
    length (Structure.functions a) = 1 /\
    In (Structure.FuncInfo.Make "area" 1 3 false) (Structure.functions a).
Proof.
  eexists. split; [reflexivity|].
  destruct (structure_functions_recorded Samples.parse_shapes
              Samples.cleandoc Samples.shapes_source Samples.shapes_tree
              _ eq_refl eq_refl) as [Hlen Hin].
  split; [exact Hlen|].
  apply (Hin "area" ["self"] [Return (Some OtherExpr)] 3).
  cbn. right. right. now left.
Defined.

(** X16: every class definition of the tree, at any depth, is recorded
    once, and its [methods] count is the number of plain function
    definitions directly in its body: nested and [async] ones are not
    counted. *)
Theorem structure_classes_recorded
    (parse : string -> exception + syntax_tree)
    (cleandoc : string -> string) (code : string) (tree : syntax_tree)
    (a : Structure.analysis_t) :
  parse code = inr tree ->
  Structure.analyze_code_structure parse cleandoc code = Structure.Success a ->
  length (Structure.classes a) =
  length (filter isinstance_ClassDef (nodes_of tree)) /\
  forall name body lineno,
    In (ClassDef name body lineno) (nodes_of tree) ->
    In (Structure.ClassInfo.Make name lineno
          (length (filter isinstance_FunctionDef body))
          match get_docstring cleandoc (ClassDef name body lineno)
          with Some _ => true | None => false end)
       (Structure.classes a).
Proof.
  intros Hparse H. rewrite (analyze_success cleandoc _ _ _ Hparse) in H.
  injection H as <-.
  rewrite (fold_left_field (Structure.visit cleandoc) Structure.classes
             blank (visit_classes cleandoc)).
  cbn [Structure.classes app]. split.
  - rewrite blank_classes_length.
    apply Permutation_length, perm_filter, walk_module_perm.
  - intros name body lineno Hn.
    apply in_flat_map. exists (ClassDef name body lineno).
    split; [now apply in_walk_module|].
    rewrite blank_class_record. now left.
Qed.

Lemma structure_classes_recorded_witness :
  exists a,
    Structure.analyze_code_structure Samples.parse_shapes Samples.cleandoc
      Samples.shapes_source = Structure.Success a /\
    length (Structure.classes a) = 1 /\
    In (Structure.ClassInfo.Make "Shape" 2 1 false) (Structure.classes a).
Proof.
  eexists. split; [reflexivity|].
  destruct (structure_classes_recorded Samples.parse_shapes
              Samples.cleandoc Samples.shapes_source Samples.shapes_tree
              _ eq_refl eq_refl) as [Hlen Hin].
  split; [exact Hlen|].
  apply (Hin "Shape"
           [ FunctionDef "area" ["self"] [Return (Some OtherExpr)] 3;
             AsyncFunctionDef "load" ["self"] [Simple] 5 ] 2).
  cbn. right. now left.
Defined.

(** X17: what [imports] holds, and nothing else: the name of every
    alias of every [import] statement of the tree, and the module of
    every [from ... import] statement (absent for a relative import
    without a module); the names a [from] statement imports are not
    recorded. *)
Theorem structure_imports_iff
    (parse : string -> exception + syntax_tree)
    (cleandoc : string -> string) (code : string) (tree : syntax_tree)
    (a : Structure.analysis_t) (m : option string) :
  parse code = inr tree ->
  Structure.analyze_code_structure parse cleandoc code = Structure.Success a ->
  (In m (Structure.imports a) <->
   (exists names x,
       In (Import names) (nodes_of tree) /\ In x names /\ m = Some x) \/
   (exists names level, In (ImportFrom m names level) (nodes_of tree))).
Proof.
  intros Hparse H. rewrite (analyze_success cleandoc _ _ _ Hparse) in H.
  injection H as <-.
  rewrite (fold_left_field (Structure.visit cleandoc) Structure.imports
             blank (visit_imports_eq cleandoc)).
  cbn [Structure.imports app]. rewrite in_flat_map. split.
  - intros (n & Hn & Hm). apply in_walk_module in Hn.
    apply blank_imports_iff in Hm
      as [(names & x & -> & Hx & ->) | (names & level & ->)].
    + left. now exists names, x.
    + right. now exists names, level.
  - intros [(names & x & Hn & Hx & ->) | (names & level & Hn)].
    + exists (Import names). split; [now apply in_walk_module|].
      apply blank_imports_iff. left. now exists names, x.
    + exists (ImportFrom m names level). split; [now apply in_walk_module|].
      apply blank_imports_iff. right. now exists names, level.
Qed.

Lemma structure_imports_iff_witness :
  exists a,
    Structure.analyze_code_structure Samples.parse_shapes Samples.cleandoc
      Samples.shapes_source = Structure.Success a /\
    In (Some "sys") (Structure.imports a).
Proof.
  eexists. split; [reflexivity|].
  apply (proj2 (structure_imports_iff Samples.parse_shapes Samples.cleandoc
                  Samples.shapes_source Samples.shapes_tree _ (Some "sys")
                  eq_refl eq_refl)).
  left. exists ["os"; "sys"], "sys".
  split; [now left|]. split; [right; now left | reflexivity].
Defined.

(** X18: [lines_of_code] is one more than the number of newline
    characters of the input: an empty input counts one line, and a
    final newline counts an empty last line. *)
Theorem structure_lines_of_code
    (parse : string -> exception + syntax_tree)
    (cleandoc : string -> string) (code : string)
    (a : Structure.analysis_t) :
  Structure.analyze_code_structure parse cleandoc code = Structure.Success a ->
  Structure.lines_of_code a = S (count_newlines code).
Proof.
  unfold Structure.analyze_code_structure.
  destruct (parse code) as [[m | m] | tree]; try discriminate.
  intros H. injection H as <-.
  rewrite fold_visit_lines_of_code. cbn [Structure.lines_of_code].
  apply length_split_lines.
Qed.

Lemma structure_lines_of_code_witness :
  exists a,
    Structure.analyze_code_structure Samples.parse_shapes Samples.cleandoc
      Samples.shapes_source = Structure.Success a /\
    Structure.lines_of_code a = 6.
Proof.
  eexists. split; [reflexivity|].
  apply (structure_lines_of_code Samples.parse_shapes Samples.cleandoc
           Samples.shapes_source).
  reflexivity.
Defined.

End StructureExtras.

(** ** Documentation auditor, further *)

Section DocumentationMore.

Import Documentation.

Variable cleandoc : string -> string.

Lemma in_le_size_all (c : stmt) (l : list stmt) :
  In c l -> size c <= size_all l.
Proof.
  unfold size_all. induction l as [|x l IH]; intros H; [contradiction|].
  cbn [map list_sum fold_right]. destruct H as [-> | H]; [lia|].
  specialize (IH H). unfold list_sum in IH. lia.
Qed.

(** A node of the subtree of a node of a subtree is a node of that
    subtree. *)
Lemma subtree_trans_bounded (k : nat) : forall n m x,
  size n <= k -> In m (subtree n) -> In x (subtree m) -> In x (subtree n).
Proof.
  induction k as [|k IH]; intros n m x Hk Hm Hx.
  - rewrite size_children in Hk. lia.
  - rewrite subtree_children in Hm. destruct Hm as [<- | Hm]; [exact Hx|].
    rewrite subtree_children. right.
    apply in_flat_map in Hm as (c & Hc & Hm).
    apply in_flat_map. exists c. split; [exact Hc|].
    apply (IH c m x); [|exact Hm | exact Hx].
    pose proof (in_le_size_all c _ Hc) as Hle.
    rewrite size_children in Hk. lia.
Qed.

Lemma subtree_trans n m x :
  In m (subtree n) -> In x (subtree m) -> In x (subtree n).
Proof. apply (subtree_trans_bounded (size n)). apply le_n. Qed.

Lemma has_return_false_iff (node : stmt) :
  has_return node = false <->
  forall value,
    ~ In (Return value) (flat_map subtree (iter_child_nodes node)).
Proof.
  split.
  - intros H value Hin.
    assert (E : has_return node = true)
      by (apply has_return_iff; now exists value).
    congruence.
  - intros H. destruct (has_return node) eqn:E; [exfalso | reflexivity].
    apply has_return_iff in E as [value Hin]. exact (H value Hin).
Qed.

Lemma parameter_issue_iff args node lineno name d :
  In (DocIssue lineno name Function undocumented_parameters MEDIUM)
     (check_function args node lineno name d []) <->
  args <> [] /\
  contains "Args:" d = false /\ contains "Parameters:" d = false.
Proof.
  clear cleandoc. unfold check_function.
  destruct args as [|x args]; cbn [length Nat.ltb Nat.leb andb];
    destruct (contains "Args:" d), (contains "Parameters:" d),
      (has_return node && _);
    cbn; intuition congruence.
Qed.

(** A function node adds no issue exactly when its docstring is long
    enough, names its parameters if it has any, and names its return
    if its nested body holds a return statement. *)
Lemma function_clean_iff name args body lineno :
  visit cleandoc [] (FunctionDef name args body lineno) = [] <->
  exists d,
    get_docstring cleandoc (FunctionDef name args body lineno) = Some d /\
    20 <= String.length d /\
    (args = [] \/ contains "Args:" d = true \/
     contains "Parameters:" d = true) /\
    ((forall value, ~ In (Return value) (flat_map subtree body)) \/
     contains "Returns:" d = true \/ contains "Return:" d = true).
Proof.
  cbn [visit]. unfold check_docstring.
  destruct (get_docstring cleandoc (FunctionDef name args body lineno))
    as [d|] eqn:Hd.
  2:{ split; [discriminate | intros (d & ? & _); discriminate]. }
  destruct d as [|c d].
  { split; [discriminate|].
    intros (d & E & Hlen & _). injection E as <-. cbn in Hlen. lia. }
  destruct (String.length (String c d) <? 20) eqn:Hlen.
  { split; [discriminate|].
    intros (d' & E & Hl & _). injection E as <-.
    apply Nat.ltb_lt in Hlen. lia. }
  apply Nat.ltb_ge in Hlen. unfold check_function.
  pose proof (has_return_false_iff (FunctionDef name args body lineno))
    as Hret. cbn [iter_child_nodes] in Hret.
  destruct (has_return (FunctionDef name args body lineno)) eqn:Hr;
    destruct args as [|x args]; cbn [length Nat.ltb Nat.leb andb];
    destruct (contains "Args:" (String c d)) eqn:HA,
      (contains "Parameters:" (String c d)) eqn:HP,
      (contains "Returns:" (String c d)) eqn:HR,
      (contains "Return:" (String c d)) eqn:HR2; cbn;
    (split;
     [ first
         [ discriminate
         | intros _; exists (String c d);
           split; [reflexivity|]; split; [exact Hlen|];
           split; [auto | first [left; apply (proj1 Hret eq_refl) | auto]] ]
     | try reflexivity;
       intros (d' & E & _ & Hp & Hq); injection E as <-; exfalso;
       destruct Hp as [Hp | [Hp | Hp]]; try congruence;
       destruct Hq as [Hq | [Hq | Hq]]; try congruence;
       apply (proj2 Hret) in Hq; congruence ]).
Qed.

Lemma class_clean_iff name body lineno :
  visit cleandoc [] (ClassDef name body lineno) = [] <->
  exists d,
    get_docstring cleandoc (ClassDef name body lineno) = Some d /\
    20 <= String.length d.
Proof.
  cbn [visit]. unfold check_docstring.
  destruct (get_docstring cleandoc (ClassDef name body lineno))
    as [d|] eqn:Hd.
  2:{ split; [discriminate | intros (d & ? & _); discriminate]. }
  destruct d as [|c d].
  { split; [discriminate|].
    intros (d & E & Hlen). injection E as <-. cbn in Hlen. lia. }
  destruct (String.length (String c d) <? 20) eqn:Hlen.
  - split; [discriminate|].
    intros (d' & E & Hl). injection E as <-.
    apply Nat.ltb_lt in Hlen. lia.
  - apply Nat.ltb_ge in Hlen. split; [|reflexivity].
    intros _. now exists (String c d).
Qed.

Lemma doc_issues_eq (l : list stmt) :
  fold_left (visit cleandoc) l [] = flat_map (visit cleandoc []) l.
Proof.
  rewrite (fold_left_appends (visit cleandoc) (doc_visit_appends cleandoc)).
  reflexivity.
Qed.

Lemma flat_map_nil_iff {A B : Type} (g : A -> list B) (l : list A) :
  flat_map g l = [] <-> forall x, In x l -> g x = [].
Proof.
  induction l as [|x l IH]; cbn [flat_map]; [now split|]. split.
  - intros H. apply app_eq_nil in H as [H1 H2].
    intros y [<- | Hy]; [exact H1 | now apply IH].
  - intros H. rewrite (H x (or_introl eq_refl)).
    apply IH. intros y Hy. apply H. now right.
Qed.

(** Where the issues of one node come from, and how they read. *)
Lemma node_issue_shape (node : stmt) (i : doc_issue) :
  In i (visit cleandoc [] node) ->
  ((exists args body,
       node = FunctionDef (element i) args body (line i) /\
       type i = Function) \/
   (exists body,
       node = ClassDef (element i) body (line i) /\ type i = Class /\
       (issue i = missing_docstring \/ issue i = too_brief))) /\
  In (issue i, severity i)
     [ (missing_docstring, HIGH); (too_brief, MEDIUM);
       (undocumented_parameters, MEDIUM); (undocumented_return, LOW) ].
Proof.
  destruct node; cbn [visit]; try contradiction; unfold check_docstring.
  - destruct (get_docstring cleandoc _) as [[|c d]|].
    + intros [<- | []]. split; [left; now eexists _, _ | cbn; auto 6].
    + destruct (String.length (String c d) <? 20).
      * intros [<- | []]. split; [left; now eexists _, _ | cbn; auto 6].
      * unfold check_function.
        destruct (_ && _), (_ && _); cbn; intros H;
          repeat (destruct H as [<- | H]); try contradiction;
          (split; [left; now eexists _, _ | cbn; auto 6]).
    + intros [<- | []]. split; [left; now eexists _, _ | cbn; auto 6].
  - destruct (get_docstring cleandoc _) as [[|c d]|].
    + intros [<- | []]. split; [right; eexists; cbn; auto 6 | cbn; auto 6].
    + destruct (String.length (String c d) <? 20); [|contradiction].
      intros [<- | []]. split; [right; eexists; cbn; auto 6 | cbn; auto 6].
    + intros [<- | []]. split; [right; eexists; cbn; auto 6 | cbn; auto 6].
Qed.

Lemma node_issue_count (node : stmt) :
  length (visit cleandoc [] node) <=
  (if isinstance_FunctionDef node then 2 else 0)
  + (if isinstance_ClassDef node then 1 else 0).
Proof.
  destruct node; cbn [visit isinstance_FunctionDef isinstance_ClassDef];
    try (cbn; lia); unfold check_docstring;
    (destruct (get_docstring cleandoc _) as [[|c d]|]; try (cbn; lia);
     destruct (String.length (String c d) <? 20); try (cbn; lia)).
  unfold check_function. destruct (_ && _), (_ && _); cbn; lia.
Qed.

Lemma sum_node_bounds (l : list stmt) :
  list_sum
    (map (fun node =>
            (if isinstance_FunctionDef node then 2 else 0)
            + (if isinstance_ClassDef node then 1 else 0)) l) =
  2 * length (filter isinstance_FunctionDef l)
  + length (filter isinstance_ClassDef l).
Proof.
  induction l as [|n l IH]; [reflexivity|].
  cbn [map list_sum fold_right filter]. unfold list_sum in IH. rewrite IH.
  destruct (isinstance_FunctionDef n), (isinstance_ClassDef n);
    cbn [length]; lia.
Qed.

End DocumentationMore.

Section DocumentationExtras.

Import Documentation.

(** X21: [well_documented] is true exactly when every function of the
    tree has a docstring of 20 characters or more that holds [Args:] or
    [Parameters:] if its [node.args.args] is not empty (parameters of
    the other kinds do not call for it), and [Returns:] or [Return:] if
    its nested body holds a return statement, and every class of the
    tree has a docstring of 20 characters or more. *)
Theorem doc_well_documented_iff
    (parse : string -> exception + syntax_tree)
    (cleandoc : string -> string) (code : string) (tree : syntax_tree)
    (n : nat) (doc_issues : list doc_issue) (flag : bool) :
  parse code = inr tree ->
  check_documentation parse cleandoc code = Success n doc_issues flag ->
  (flag = true <->
   (forall name args body lineno,
      In (FunctionDef name args body lineno) (nodes_of tree) ->
      exists d,
        get_docstring cleandoc (FunctionDef name args body lineno) = Some d /\
        20 <= String.length d /\
        (args = [] \/ contains "Args:" d = true \/
         contains "Parameters:" d = true) /\
        ((forall value, ~ In (Return value) (flat_map subtree body)) \/
         contains "Returns:" d = true \/ contains "Return:" d = true)) /\
   (forall name body lineno,
      In (ClassDef name body lineno) (nodes_of tree) ->
      exists d,
        get_docstring cleandoc (ClassDef name body lineno) = Some d /\
        20 <= String.length d)).
Proof.
  intros Hparse H. unfold check_documentation in H. rewrite Hparse in H.
  injection H as _ <- <-.
  rewrite length_zero_nil, doc_issues_eq, flat_map_nil_iff. split.
  - intros Hall. split.
    + intros name args body lineno Hn. apply function_clean_iff.
      apply Hall. now apply in_walk_module.
    + intros name body lineno Hn. apply class_clean_iff.
      apply Hall. now apply in_walk_module.
  - intros [Hf Hc] node Hn. apply in_walk_module in Hn.
    destruct node; try reflexivity.
    + apply function_clean_iff. now apply Hf.
    + apply class_clean_iff. now apply Hc.
Qed.

Lemma doc_well_documented_iff_witness :
  check_documentation Samples.parse Samples.cleandoc Samples.stop_source
    = Success 1 [DocIssue 1 "stop" Function undocumented_return LOW] false /\
  ~ (forall value,
        ~ In (Return value)
             (flat_map subtree
                [Expr (Constant_str Samples.stop_docstring); Return None])).
Proof.
  split; [reflexivity|]. intros Hnone.
  pose proof (doc_well_documented_iff Samples.parse Samples.cleandoc
                Samples.stop_source (PyModule [Samples.stop_function])
                1 [DocIssue 1 "stop" Function undocumented_return LOW] false
                eq_refl eq_refl) as [_ H].
  enough (false = true) by discriminate.
  apply H. split.
  - intros name args body lineno Hn. cbn in Hn.
    destruct Hn as [Hn | [Hn | [Hn | []]]]; try discriminate.
    injection Hn as <- <- <- <-.
    exists Samples.stop_docstring.
    split; [reflexivity|]. split; [vm_compute; lia|].
    split; [now left | left; exact Hnone].
  - intros name body lineno Hn. cbn in Hn.
    destruct Hn as [Hn | [Hn | [Hn | []]]]; discriminate.
Defined.

(** X22: every issue of the auditor names a function or class
    definition of the tree, by its name and line, and there are at most
    two issues for each function and one for each class. *)
Theorem doc_issues_name_nodes
    (parse : string -> exception + syntax_tree)
    (cleandoc : string -> string) (code : string) (tree : syntax_tree)
    (n : nat) (doc_issues : list doc_issue) (flag : bool) :
  parse code = inr tree ->
  check_documentation parse cleandoc code = Success n doc_issues flag ->
  (forall i, In i doc_issues ->
     (exists args body,
         In (FunctionDef (element i) args body (line i)) (nodes_of tree) /\
         type i = Function) \/
     (exists body,
         In (ClassDef (element i) body (line i)) (nodes_of tree) /\
         type i = Class)) /\
  n <= 2 * length (filter isinstance_FunctionDef (nodes_of tree))
       + length (filter isinstance_ClassDef (nodes_of tree)).
Proof.
  intros Hparse H. unfold check_documentation in H. rewrite Hparse in H.
  injection H as <- <- _. rewrite doc_issues_eq. split.
  - intros i Hi. apply in_flat_map in Hi as (node & Hn & Hi).
    apply in_walk_module in Hn.
    destruct (node_issue_shape cleandoc node i Hi)
      as [[(args & body & -> & Ht) | (body & -> & Ht & _)] _].
    + left. now exists args, body.
    + right. now exists body.
  - etransitivity.
    + apply length_flat_map_le. apply node_issue_count.
    + rewrite sum_node_bounds.
      pose proof (walk_module_perm tree) as P.
      rewrite (Permutation_length
                 (perm_filter isinstance_FunctionDef _ _ P)).
      rewrite (Permutation_length (perm_filter isinstance_ClassDef _ _ P)).
      apply le_n.
Qed.

Lemma doc_issues_name_nodes_witness :
  exists args body,
    In (FunctionDef "stop" args body 1)
       (nodes_of (PyModule [Samples.stop_function])).
Proof.
  destruct (proj1 (doc_issues_name_nodes Samples.parse Samples.cleandoc
                     Samples.stop_source (PyModule [Samples.stop_function])
                     1 [DocIssue 1 "stop" Function undocumented_return LOW]
                     false eq_refl eq_refl)
              (DocIssue 1 "stop" Function undocumented_return LOW)
              (or_introl eq_refl))
    as [(args & body & H & _) | (body & _ & Ht)].
  - now exists args, body.
  - discriminate Ht.
Defined.

(** X23: the auditor has four issue texts, each with one severity:
    missing docstring HIGH, docstring too brief MEDIUM, parameters not
    documented MEDIUM, return not documented LOW; and a class is only
    ever reported for a missing or too brief docstring. *)
Theorem doc_severity_by_issue
    (parse : string -> exception + syntax_tree)
    (cleandoc : string -> string) (code : string)
    (n : nat) (doc_issues : list doc_issue) (flag : bool) :
  check_documentation parse cleandoc code = Success n doc_issues flag ->
  forall i, In i doc_issues ->
    In (issue i, severity i)
       [ (missing_docstring, HIGH); (too_brief, MEDIUM);
         (undocumented_parameters, MEDIUM); (undocumented_return, LOW) ] /\
    (type i = Class ->
     issue i = missing_docstring \/ issue i = too_brief).
Proof.
  unfold check_documentation.
  destruct (parse code) as [[m | m] | tree]; try discriminate.
  intros H. injection H as _ <- _. rewrite doc_issues_eq.
  intros i Hi. apply in_flat_map in Hi as (node & _ & Hi).
  destruct (node_issue_shape cleandoc node i Hi)
    as [[(args & body & _ & Ht) | (body & _ & _ & Hc)] Hs].
  - split; [exact Hs | congruence].
  - split; [exact Hs | intros _; exact Hc].
Qed.

Lemma doc_severity_by_issue_witness :
  In (undocumented_return, LOW)
     [ (missing_docstring, HIGH); (too_brief, MEDIUM);
       (undocumented_parameters, MEDIUM); (undocumented_return, LOW) ].
Proof.
  apply (proj1 (doc_severity_by_issue Samples.parse Samples.cleandoc
                  Samples.stop_source 1
                  [DocIssue 1 "stop" Function undocumented_return LOW] false
                  eq_refl
                  (DocIssue 1 "stop" Function undocumented_return LOW)
                  (or_introl eq_refl))).
Defined.

(** X24: a return statement inside a nested definition counts for
    every function around it: when a node of the nested body of a
    function has a return statement below it, so has the function. *)
Theorem doc_nested_return_counts (name : string) (args : list string)
    (body : list stmt) (lineno : nat) (inner : stmt) :
  In inner (flat_map subtree body) ->
  has_return inner = true ->
  has_return (FunctionDef name args body lineno) = true.
Proof.
  intros Hin Hret.
  apply has_return_iff in Hret as [value Hv].
  apply has_return_iff. exists value. cbn [iter_child_nodes].
  apply in_flat_map in Hin as (c & Hc & Hin).
  apply in_flat_map. exists c. split; [exact Hc|].
  apply (subtree_trans c inner); [exact Hin|].
  rewrite subtree_children. now right.
Qed.

Lemma doc_nested_return_counts_witness :
  has_return Samples.setup_function = true /\
  In (DocIssue 1 "setup" Function undocumented_return LOW)
     (visit Samples.cleandoc [] Samples.setup_function).
Proof.
  split; [|vm_compute; now left].
  apply (doc_nested_return_counts "setup" []
           [Expr (Constant_str "Registers the helper and stops.");
            Samples.helper_function] 1 Samples.helper_function).
  - cbn. right. now left.
  - reflexivity.
Defined.

End DocumentationExtras.

(* ================================================================= *)
(** * The auditor's result, definition by definition *)

Section ResultFacts.

Import Documentation.

Variable parse : string -> exception + syntax_tree.
Variable cleandoc : string -> string.

Lemma filter_all {A : Type} (keep : A -> bool) (l : list A) :
  (forall x, In x l -> keep x = true) -> filter keep l = l.
Proof.
  clear parse cleandoc.
  induction l as [|x l IH]; intros H; cbn [filter]; [reflexivity|].
  rewrite (H x (or_introl eq_refl)). f_equal. apply IH.
  intros y Hy. apply H. now right.
Qed.

(** Filtering what the nodes give by a key that follows the node is
    filtering the nodes. *)
Lemma filter_flat_map_key {A B : Type} (g : A -> list B)
    (key : B -> bool) (sel : A -> bool) :
  (forall n x, In x (g n) -> key x = sel n) ->
  forall l, filter key (flat_map g l) = flat_map g (filter sel l).
Proof.
  clear parse cleandoc.
  intros Hkey l. induction l as [|n l IH]; [reflexivity|].
  cbn [flat_map filter]. rewrite filter_app, IH.
  destruct (sel n) eqn:E.
  - cbn [flat_map]. f_equal. apply filter_all.
    intros x Hx. now rewrite (Hkey n x Hx).
  - rewrite filter_none; [reflexivity|].
    intros x Hx. now rewrite (Hkey n x Hx).
Qed.

Lemma only_of_perm {A : Type} (keep : A -> bool) (l l' : list A) (x : A) :
  Permutation l l' -> filter keep l' = [x] -> filter keep l = [x].
Proof.
  clear parse cleandoc.
  intros P H. apply Permutation_length_1_inv.
  rewrite <- H. apply perm_filter. now apply Permutation_sym.
Qed.

Lemma only_definition (ty : node_type) (name : string) (lineno : nat)
    (l : list stmt) (node n : stmt) :
  filter (defines ty name lineno) l = [node] ->
  In n l -> defines ty name lineno n = true -> n = node.
Proof.
  clear parse cleandoc.
  intros H Hn Hd.
  assert (Hin : In n (filter (defines ty name lineno) l))
    by (apply filter_In; now split).
  rewrite H in Hin. destruct Hin as [<- | []]. reflexivity.
Qed.

Lemma only_definition_in (ty : node_type) (name : string) (lineno : nat)
    (l : list stmt) (node : stmt) :
  filter (defines ty name lineno) l = [node] ->
  In node l /\ defines ty name lineno node = true.
Proof.
  clear parse cleandoc.
  intros H. apply filter_In. rewrite H. now left.
Qed.

Lemma defines_function name lineno name' args body lineno' :
  defines Function name lineno (FunctionDef name' args body lineno') = true
  <-> name' = name /\ lineno' = lineno.
Proof.
  clear parse cleandoc.
  cbn [defines node_type_eqb andb].
  rewrite andb_true_iff, String.eqb_eq, Nat.eqb_eq. reflexivity.
Qed.

(** The issues of a node are about that node. *)
Lemma issue_about_node (ty : node_type) (name : string) (lineno : nat)
    (node : stmt) (i : doc_issue) :
  In i (visit cleandoc [] node) ->
  about ty name lineno i = defines ty name lineno node.
Proof.
  intros Hi.
  destruct (node_issue_shape cleandoc node i Hi)
    as [[(args & body & -> & Ht) | (body & -> & Ht & _)] _];
    unfold about; rewrite Ht; reflexivity.
Qed.

(** The list of issues of a success result: those of each node, in
    the order of the walk. *)
Lemma doc_result code tree n doc_issues flag :
  parse code = inr tree ->
  check_documentation parse cleandoc code = Success n doc_issues flag ->
  doc_issues = flat_map (visit cleandoc []) (walk_module tree) /\
  n = length doc_issues /\ flag = (length doc_issues =? 0).
Proof.
  intros Hparse H. unfold check_documentation in H. rewrite Hparse in H.
  injection H as <- <- <-. rewrite doc_issues_eq. repeat split.
Qed.

Lemma in_doc_result code tree n doc_issues flag i :
  parse code = inr tree ->
  check_documentation parse cleandoc code = Success n doc_issues flag ->
  (In i doc_issues <->
   exists node, In node (nodes_of tree) /\ In i (visit cleandoc [] node)).
Proof.
  intros Hparse H.
  destruct (doc_result _ _ _ _ _ Hparse H) as (-> & _ & _).
  rewrite in_flat_map. split; intros (node & Hn & Hi); exists node;
    (split; [now apply in_walk_module | exact Hi]).
Qed.

(** The issues about a definition that is the only one of its kind,
    name and line are the issues of its node. *)
Lemma issues_about_only code tree n doc_issues flag ty name lineno node :
  parse code = inr tree ->
  check_documentation parse cleandoc code = Success n doc_issues flag ->
  filter (defines ty name lineno) (nodes_of tree) = [node] ->
  filter (about ty name lineno) doc_issues = visit cleandoc [] node.
Proof.
  intros Hparse H Honly.
  destruct (doc_result _ _ _ _ _ Hparse H) as (-> & _ & _).
  rewrite (filter_flat_map_key (visit cleandoc []) (about ty name lineno)
             (defines ty name lineno) (issue_about_node ty name lineno)).
  rewrite (only_of_perm _ _ _ _ (walk_module_perm tree) Honly).
  cbn [flat_map]. apply app_nil_r.
Qed.

(** Where the issue about the return comes from. *)
Lemma visit_return_issue_inv name lineno node :
  In (DocIssue lineno name Function undocumented_return LOW)
     (visit cleandoc [] node) ->
  exists args body d,
    node = FunctionDef name args body lineno /\
    get_docstring cleandoc node = Some d /\ 20 <= String.length d.
Proof.
  intros Hi.
  destruct (node_issue_shape cleandoc node _ Hi)
    as [[(args & body & -> & _) | (body & _ & Ht & _)] _];
    [|discriminate Ht].
  cbn [element line] in Hi |- *. exists args, body.
  cbn [visit] in Hi. unfold check_docstring in Hi.
  destruct (get_docstring cleandoc (FunctionDef name args body lineno))
    as [[|c d]|]; try (destruct Hi as [Hi | []]; discriminate Hi).
  destruct (String.length (String c d) <? 20) eqn:Hlen;
    [destruct Hi as [Hi | []]; discriminate Hi|].
  apply Nat.ltb_ge in Hlen. exists (String c d). now repeat split.
Qed.

(** Where the issue about the parameters comes from. *)
Lemma visit_parameter_issue_inv name lineno node :
  In (DocIssue lineno name Function undocumented_parameters MEDIUM)
     (visit cleandoc [] node) ->
  exists args body d,
    node = FunctionDef name args body lineno /\
    get_docstring cleandoc node = Some d /\ 20 <= String.length d.
Proof.
  intros Hi.
  destruct (node_issue_shape cleandoc node _ Hi)
    as [[(args & body & -> & _) | (body & _ & Ht & _)] _];
    [|discriminate Ht].
  cbn [element line] in Hi |- *. exists args, body.
  cbn [visit] in Hi. unfold check_docstring in Hi.
  destruct (get_docstring cleandoc (FunctionDef name args body lineno))
    as [[|c d]|]; try (destruct Hi as [Hi | []]; discriminate Hi).
  destruct (String.length (String c d) <? 20) eqn:Hlen;
    [destruct Hi as [Hi | []]; discriminate Hi|].
  apply Nat.ltb_ge in Hlen. exists (String c d). now repeat split.
Qed.

Lemma visit_parameter_issue_iff name args body lineno d :
  get_docstring cleandoc (FunctionDef name args body lineno) = Some d ->
  20 <= String.length d ->
  (In (DocIssue lineno name Function undocumented_parameters MEDIUM)
      (visit cleandoc [] (FunctionDef name args body lineno)) <->
   args <> [] /\
   contains "Args:" d = false /\ contains "Parameters:" d = false).
Proof.
  intros Hd Hlen.
  rewrite (visit_adequate_function cleandoc name args body lineno d Hd Hlen).
  apply parameter_issue_iff.
Qed.

(** The function records of a node are those of its name and line. *)
Lemma record_of_node name lineno node (f : Structure.FuncInfo.t) :
  In f (Structure.functions (Structure.visit cleandoc blank node)) ->
  record_of name lineno f = defines Function name lineno node.
Proof.
  destruct node; rewrite ?blank_function_record;
    cbn [Structure.visit]; rewrite ?add_imports_eq;
    try (cbn; contradiction).
  - intros [<- | []]. reflexivity.
  - destruct (negb _); cbn; contradiction.
Qed.

Lemma structure_functions_eq code tree a :
  parse code = inr tree ->
  Structure.analyze_code_structure parse cleandoc code = Structure.Success a ->
  Structure.functions a =
  flat_map (fun n => Structure.functions (Structure.visit cleandoc blank n))
           (walk_module tree).
Proof.
  intros Hparse H. rewrite (analyze_success cleandoc _ _ _ Hparse) in H.
  injection H as <-.
  now rewrite (fold_left_field (Structure.visit cleandoc) Structure.functions
                 blank (visit_functions cleandoc)).
Qed.

End ResultFacts.

Section AuditorResults.

Import Documentation.

(** C3, as the spec words it, fails: on a module whose one function has
    an adequate docstring and a bare [return] as its only return
    statement, the auditor's result is the one LOW issue about the
    return value, although the nested body of the function holds no
    return with a value. *)
Lemma doc_bare_return_is_reported :
  Samples.parse Samples.stop_source = inr (PyModule [Samples.stop_function]) /\
  check_documentation Samples.parse Samples.cleandoc Samples.stop_source
    = Success 1 [DocIssue 1 "stop" Function undocumented_return LOW] false /\
  get_docstring Samples.cleandoc Samples.stop_function
    = Some Samples.stop_docstring /\
  20 <= String.length Samples.stop_docstring /\
  ~ (exists e, In (Return (Some e))
                  (flat_map subtree
                     (iter_child_nodes Samples.stop_function))).
Proof.
  split; [reflexivity|]. split; [reflexivity|].
  split; [reflexivity|]. split; [vm_compute; lia|].
  intros (e & H). vm_compute in H.
  destruct H as [H | [H | []]]; discriminate.
Qed.

(** C3, amended, on the result of the auditor.  The LOW issue about
    the return value of the function [name] of line [lineno] is in the
    result exactly when the tree holds a function of that name and
    line with an adequate docstring, whose nested body holds a return
    statement, with or without a value, and whose docstring holds
    neither [Returns:] nor [Return:].  So, for a function node with an
    adequate docstring that is the only definition of its name on its
    line, the issue is in the result exactly when its nested body
    holds a return statement and its docstring has neither marker. *)
Theorem doc_return_issue_iff
    (parse : string -> exception + syntax_tree)
    (cleandoc : string -> string) (code : string) (tree : syntax_tree)
    (n : nat) (doc_issues : list doc_issue) (flag : bool) :
  parse code = inr tree ->
  check_documentation parse cleandoc code = Success n doc_issues flag ->
  (forall name lineno,
     In (DocIssue lineno name Function undocumented_return LOW) doc_issues
     <->
     exists args body d,
       In (FunctionDef name args body lineno) (nodes_of tree) /\
       get_docstring cleandoc (FunctionDef name args body lineno) = Some d /\
       20 <= String.length d /\
       (exists value, In (Return value) (flat_map subtree body)) /\
       contains "Returns:" d = false /\ contains "Return:" d = false) /\
  (forall name args body lineno d,
     filter (defines Function name lineno) (nodes_of tree)
       = [FunctionDef name args body lineno] ->
     get_docstring cleandoc (FunctionDef name args body lineno) = Some d ->
     20 <= String.length d ->
     (In (DocIssue lineno name Function undocumented_return LOW) doc_issues
      <->
      (exists value, In (Return value) (flat_map subtree body)) /\
      contains "Returns:" d = false /\ contains "Return:" d = false)).
Proof.
  intros Hparse H.
  assert (Hall : forall name lineno,
    In (DocIssue lineno name Function undocumented_return LOW) doc_issues
    <->
    exists args body d,
      In (FunctionDef name args body lineno) (nodes_of tree) /\
      get_docstring cleandoc (FunctionDef name args body lineno) = Some d /\
      20 <= String.length d /\
      (exists value, In (Return value) (flat_map subtree body)) /\
      contains "Returns:" d = false /\ contains "Return:" d = false).
  { intros name lineno.
    rewrite (in_doc_result parse cleandoc _ _ _ _ _ _ Hparse H). split.
    - intros (node & Hn & Hi).
      destruct (visit_return_issue_inv cleandoc name lineno node Hi)
        as (args & body & d & -> & Hd & Hlen).
      exists args, body, d. split; [exact Hn|].
      split; [exact Hd|]. split; [exact Hlen|].
      now apply (visit_return_issue_iff cleandoc name args body lineno d).
    - intros (args & body & d & Hn & Hd & Hlen & Hret).
      exists (FunctionDef name args body lineno). split; [exact Hn|].
      now apply (visit_return_issue_iff cleandoc name args body lineno d). }
  split; [exact Hall|].
  intros name args body lineno d Honly Hd Hlen. rewrite Hall. split.
  - intros (args' & body' & d' & Hn & Hd' & _ & Hret).
    assert (E : FunctionDef name args' body' lineno =
                FunctionDef name args body lineno).
    { apply (only_definition Function name lineno _ _ _ Honly Hn).
      now apply defines_function. }
    injection E as -> ->. rewrite Hd in Hd'. injection Hd' as <-.
    exact Hret.
  - intros Hret. exists args, body, d.
    split; [exact (proj1 (only_definition_in _ _ _ _ _ Honly))|].
    now repeat split.
Qed.

Lemma doc_return_issue_iff_witness :
  In (DocIssue 1 "stop" Function undocumented_return LOW)
     [DocIssue 1 "stop" Function undocumented_return LOW] <->
  (exists value,
      In (Return value)
         (flat_map subtree
            [Expr (Constant_str Samples.stop_docstring); Return None])) /\
  contains "Returns:" Samples.stop_docstring = false /\
  contains "Return:" Samples.stop_docstring = false.
Proof.
  apply (proj2 (doc_return_issue_iff Samples.parse Samples.cleandoc
                  Samples.stop_source (PyModule [Samples.stop_function])
                  1 [DocIssue 1 "stop" Function undocumented_return LOW]
                  false eq_refl eq_refl)
           "stop" []
           [Expr (Constant_str Samples.stop_docstring); Return None] 1
           Samples.stop_docstring).
  - reflexivity.
  - reflexivity.
  - vm_compute. lia.
Defined.

(** C7, on the result of the auditor.  Every function or class of the
    tree without a docstring has, in the result, the HIGH issue
    "Missing docstring" with its line, its name and its kind.  When it
    is the only definition of its kind and name on its line, that issue
    is the one issue of the result about it: no issue for a brief
    docstring, for parameters or for the return.  And an issue for a
    missing or a too brief docstring is always the only issue about
    such a definition. *)
Theorem doc_missing_docstring_alone
    (parse : string -> exception + syntax_tree)
    (cleandoc : string -> string) (code : string) (tree : syntax_tree)
    (n : nat) (doc_issues : list doc_issue) (flag : bool) :
  parse code = inr tree ->
  check_documentation parse cleandoc code = Success n doc_issues flag ->
  (forall ty name lineno node,
     In node (nodes_of tree) -> defines ty name lineno node = true ->
     get_docstring cleandoc node = None ->
     In (DocIssue lineno name ty missing_docstring HIGH) doc_issues) /\
  (forall ty name lineno node,
     filter (defines ty name lineno) (nodes_of tree) = [node] ->
     get_docstring cleandoc node = None ->
     filter (about ty name lineno) doc_issues
       = [DocIssue lineno name ty missing_docstring HIGH]) /\
  (forall ty name lineno node i,
     filter (defines ty name lineno) (nodes_of tree) = [node] ->
     In i doc_issues -> about ty name lineno i = true ->
     issue i = missing_docstring \/ issue i = too_brief ->
     filter (about ty name lineno) doc_issues = [i]).
Proof.
  intros Hparse H. split; [|split].
  - intros ty name lineno node Hn Hdef Hdoc.
    apply (in_doc_result parse cleandoc _ _ _ _ _ _ Hparse H).
    exists node. split; [exact Hn|].
    rewrite (visit_missing_docstring cleandoc ty name lineno node Hdef Hdoc).
    now left.
  - intros ty name lineno node Honly Hdoc.
    rewrite (issues_about_only parse cleandoc _ _ _ _ _ _ _ _ _
               Hparse H Honly).
    apply visit_missing_docstring; [|exact Hdoc].
    exact (proj2 (only_definition_in _ _ _ _ _ Honly)).
  - intros ty name lineno node i Honly Hi Habout Hissue.
    pose proof (issues_about_only parse cleandoc _ _ _ _ _ _ _ _ _
                  Hparse H Honly) as E.
    rewrite E. apply visit_exclusive; [|exact Hissue].
    rewrite <- E. apply filter_In. now split.
Qed.

Lemma doc_missing_docstring_alone_witness :
  filter (about Function "first" 1)
         [DocIssue 1 "first" Function missing_docstring HIGH]
  = [DocIssue 1 "first" Function missing_docstring HIGH].
Proof.
  apply (proj1 (proj2 (doc_missing_docstring_alone Samples.parse
                         Samples.cleandoc Samples.first_source
                         (PyModule [Samples.first_function]) 1
                         [DocIssue 1 "first" Function missing_docstring HIGH]
                         false eq_refl eq_refl))
           Function "first" 1 Samples.first_function).
  - reflexivity.
  - reflexivity.
Defined.

(** X19: the two analyzers disagree on a docstring that is empty once
    cleaned.  For a function of the tree whose body starts with such a
    string, the result of the structure analyzer holds its record with
    [has_docstring] true, while the result of the auditor holds the
    HIGH issue "Missing docstring" for it and [well_documented] is
    false.  When it is the only function of its name on its line, that
    record is its only record and that issue the only issue about
    it. *)
Theorem empty_docstring_seen_differently
    (parse : string -> exception + syntax_tree)
    (cleandoc : string -> string) (code : string) (tree : syntax_tree)
    (a : Structure.analysis_t)
    (n : nat) (doc_issues : list doc_issue) (flag : bool)
    (name : string) (args : list string) (text : string)
    (rest : list stmt) (lineno : nat) :
  parse code = inr tree ->
  Structure.analyze_code_structure parse cleandoc code = Structure.Success a ->
  check_documentation parse cleandoc code = Success n doc_issues flag ->
  In (FunctionDef name args (Expr (Constant_str text) :: rest) lineno)
     (nodes_of tree) ->
  cleandoc text = EmptyString ->
  In (Structure.FuncInfo.Make name (length args) lineno true)
     (Structure.functions a) /\
  In (DocIssue lineno name Function missing_docstring HIGH) doc_issues /\
  flag = false /\
  (filter (defines Function name lineno) (nodes_of tree)
     = [FunctionDef name args (Expr (Constant_str text) :: rest) lineno] ->
   filter (record_of name lineno) (Structure.functions a)
     = [Structure.FuncInfo.Make name (length args) lineno true] /\
   filter (about Function name lineno) doc_issues
     = [DocIssue lineno name Function missing_docstring HIGH]).
Proof.
  intros Hparse Hs Hd Hn Hclean.
  assert (Hvisit :
    visit cleandoc []
      (FunctionDef name args (Expr (Constant_str text) :: rest) lineno)
    = [DocIssue lineno name Function missing_docstring HIGH]).
  { cbn [visit]. unfold check_docstring. cbn [get_docstring].
    now rewrite Hclean. }
  assert (Hin : In (DocIssue lineno name Function missing_docstring HIGH)
                   doc_issues).
  { apply (in_doc_result parse cleandoc _ _ _ _ _ _ Hparse Hd).
    eexists. split; [exact Hn|]. rewrite Hvisit. now left. }
  split; [|split; [exact Hin|split]].
  - rewrite (structure_functions_eq parse cleandoc _ _ _ Hparse Hs).
    apply in_flat_map. eexists. split; [apply in_walk_module; exact Hn|].
    rewrite blank_function_record. now left.
  - destruct (doc_result parse cleandoc _ _ _ _ _ Hparse Hd) as (_ & _ & ->).
    destruct doc_issues; [contradiction | reflexivity].
  - intros Honly. split.
    + rewrite (structure_functions_eq parse cleandoc _ _ _ Hparse Hs).
      rewrite (filter_flat_map_key _ (record_of name lineno)
                 (defines Function name lineno)
                 (record_of_node cleandoc name lineno)).
      rewrite (only_of_perm _ _ _ _ (walk_module_perm tree) Honly).
      cbn [flat_map]. rewrite blank_function_record. reflexivity.
    + rewrite (issues_about_only parse cleandoc _ _ _ _ _ _ _ _ _
                 Hparse Hd Honly).
      exact Hvisit.
Qed.

Lemma empty_docstring_seen_differently_witness :
  Structure.analyze_code_structure Samples.parse_documented Samples.cleandoc
    Samples.quiet_source
  = Structure.Success
      (Structure.Analysis [Structure.FuncInfo.Make "quiet" 0 1 true]
                          [] [] 3 []) /\
  check_documentation Samples.parse_documented Samples.cleandoc
    Samples.quiet_source
  = Success 1 [DocIssue 1 "quiet" Function missing_docstring HIGH] false /\
  In (Structure.FuncInfo.Make "quiet" 0 1 true)
     [Structure.FuncInfo.Make "quiet" 0 1 true].
Proof.
  split; [reflexivity|]. split; [reflexivity|].
  apply (proj1 (empty_docstring_seen_differently Samples.parse_documented
                  Samples.cleandoc Samples.quiet_source
                  (PyModule [Samples.quiet_function])
                  (Structure.Analysis
                     [Structure.FuncInfo.Make "quiet" 0 1 true] [] [] 3 [])
                  1 [DocIssue 1 "quiet" Function missing_docstring HIGH]
                  false "quiet" [] EmptyString [Simple] 1
                  eq_refl eq_refl eq_refl (or_introl eq_refl) eq_refl)).
Defined.

(** X20: on the result of the auditor, the MEDIUM issue about the
    parameters of the function [name] of line [lineno] is reported
    exactly when the tree holds a function of that name and line with
    an adequate docstring, a non-empty [node.args.args] and a
    docstring that holds neither [Args:] nor [Parameters:].
    Positional-only and keyword-only parameters, [*args] and
    [**kwargs] are not in [node.args.args] and never call for the
    issue. *)
Theorem doc_parameter_issue_iff
    (parse : string -> exception + syntax_tree)
    (cleandoc : string -> string) (code : string) (tree : syntax_tree)
    (n : nat) (doc_issues : list doc_issue) (flag : bool) :
  parse code = inr tree ->
  check_documentation parse cleandoc code = Success n doc_issues flag ->
  (forall name lineno,
     In (DocIssue lineno name Function undocumented_parameters MEDIUM)
        doc_issues
     <->
     exists args body d,
       In (FunctionDef name args body lineno) (nodes_of tree) /\
       get_docstring cleandoc (FunctionDef name args body lineno) = Some d /\
       20 <= String.length d /\
       args <> [] /\
       contains "Args:" d = false /\ contains "Parameters:" d = false) /\
  (forall name args body lineno d,
     filter (defines Function name lineno) (nodes_of tree)
       = [FunctionDef name args body lineno] ->
     get_docstring cleandoc (FunctionDef name args body lineno) = Some d ->
     20 <= String.length d ->
     (In (DocIssue lineno name Function undocumented_parameters MEDIUM)
         doc_issues
      <->
      args <> [] /\
      contains "Args:" d = false /\ contains "Parameters:" d = false)).
Proof.
  intros Hparse H.
  assert (Hall : forall name lineno,
    In (DocIssue lineno name Function undocumented_parameters MEDIUM)
       doc_issues
    <->
    exists args body d,
      In (FunctionDef name args body lineno) (nodes_of tree) /\
      get_docstring cleandoc (FunctionDef name args body lineno) = Some d /\
      20 <= String.length d /\
      args <> [] /\
      contains "Args:" d = false /\ contains "Parameters:" d = false).
  { intros name lineno.
    rewrite (in_doc_result parse cleandoc _ _ _ _ _ _ Hparse H). split.
    - intros (node & Hn & Hi).
      destruct (visit_parameter_issue_inv cleandoc name lineno node Hi)
        as (args & body & d & -> & Hd & Hlen).
      exists args, body, d. split; [exact Hn|].
      split; [exact Hd|]. split; [exact Hlen|].
      now apply (visit_parameter_issue_iff cleandoc name args body lineno d).
    - intros (args & body & d & Hn & Hd & Hlen & Hp).
      exists (FunctionDef name args body lineno). split; [exact Hn|].
      now apply (visit_parameter_issue_iff cleandoc name args body lineno d). }
  split; [exact Hall|].
  intros name args body lineno d Honly Hd Hlen. rewrite Hall. split.
  - intros (args' & body' & d' & Hn & Hd' & _ & Hp).
    assert (E : FunctionDef name args' body' lineno =
                FunctionDef name args body lineno).
    { apply (only_definition Function name lineno _ _ _ Honly Hn).
      now apply defines_function. }
    injection E as -> ->. rewrite Hd in Hd'. injection Hd' as <-.
    exact Hp.
  - intros Hp. exists args, body, d.
    split; [exact (proj1 (only_definition_in _ _ _ _ _ Honly))|].
    now repeat split.
Qed.

Lemma doc_parameter_issue_iff_witness :
  check_documentation Samples.parse_documented Samples.cleandoc
    Samples.scale_source
  = Success 2
      [DocIssue 1 "scale" Function undocumented_parameters MEDIUM;
       DocIssue 1 "scale" Function undocumented_return LOW] false /\
  In (DocIssue 1 "scale" Function undocumented_parameters MEDIUM)
     [DocIssue 1 "scale" Function undocumented_parameters MEDIUM;
      DocIssue 1 "scale" Function undocumented_return LOW].
Proof.
  split; [reflexivity|].
  apply (proj2 (proj2 (doc_parameter_issue_iff Samples.parse_documented
                         Samples.cleandoc Samples.scale_source
                         (PyModule [Samples.scale_function]) 2
                         [DocIssue 1 "scale" Function
                            undocumented_parameters MEDIUM;
                          DocIssue 1 "scale" Function
                            undocumented_return LOW]
                         false eq_refl eq_refl)
                  "scale" ["x"; "k"]
                  [Expr (Constant_str Samples.scale_docstring);
                   Return (Some OtherExpr)] 1 Samples.scale_docstring
                  eq_refl eq_refl ltac:(vm_compute; lia))).
  split; [discriminate|]. split; reflexivity.
Defined.

End AuditorResults.
